(** * Streaming session coordinator of the Vosk speech service

    A shallow embedding of [src/vosk_service.py]: the audio normaliser that
    turns a float32 fragment into 16-bit PCM, the session registry (the three
    module-level containers [recognizers], [session_locks], [session_closed])
    and the two request handlers [recognize_audio_stream] and
    [reset_recognizer].

    Conventions:
    - bytes are [list byte]; numpy arrays are lists of samples together with
      the [writeable] flag numpy keeps for them;
    - binary32 numbers are [spec_float] at precision 24 and [emax] 128;
    - the recognition engine (vosk) and [json.loads] are external: they are
      section variables, every call to the engine is recorded in [calls];
    - [print] statements have no effect on the state or the response and are
      left out. *)

From Stdlib Require Import ZArith List Bool String Ascii Lia.
From Stdlib Require Import Init.Byte.
From Stdlib Require Import Floats.SpecFloat.
From stdpp Require Import gmap strings list pretty.

Open Scope Z_scope.

(** ** Exceptions *)

(** A Python computation either yields a value or raises; an exception is
    represented by [str(e)], the only thing the handlers look at. *)
Inductive outcome (A : Type) : Type :=
| Normal (a : A)
| Raised (e : string).
Arguments Normal {A} a.
Arguments Raised {A} e.

(** ** binary32 samples *)

Module Float32.

Definition prec : Z := 24.
Definition emax : Z := 128.

Definition float32 : Type := spec_float.

(** The value of an IEEE 754 binary32 bit pattern. *)
Definition of_bits (w : Z) : float32 :=
  let s := Z.testbit w 31 in
  let e := Z.land (Z.shiftr w 23) 255 in
  let m := Z.land w 8388607 in
  if e =? 255 then (if m =? 0 then S754_infinity s else S754_nan)
  else if e =? 0 then
    match m with
    | Zpos p => S754_finite s p (-149)
    | _ => S754_zero s
    end
  else S754_finite s (Z.to_pos (Z.lor m 8388608)) (e - 150).

(** Four bytes, little-endian. *)
Definition of_bytes (b0 b1 b2 b3 : byte) : float32 :=
  of_bits (Z.lor (Z.of_N (Byte.to_N b0))
          (Z.lor (Z.shiftl (Z.of_N (Byte.to_N b1)) 8)
          (Z.lor (Z.shiftl (Z.of_N (Byte.to_N b2)) 16)
                 (Z.shiftl (Z.of_N (Byte.to_N b3)) 24)))).

Definition of_Z (z : Z) : float32 := binary_normalize prec emax z 0 false.

Definition zero : float32 := S754_zero false.
Definition one : float32 := of_Z 1.
Definition minus_one : float32 := of_Z (-1).

Definition mul : float32 -> float32 -> float32 := SFmul prec emax.
Definition leb : float32 -> float32 -> bool := SFleb.

Definition isnan (x : float32) : bool :=
  match x with S754_nan => true | _ => false end.

Definition isinf (x : float32) : bool :=
  match x with S754_infinity _ => true | _ => false end.

(** The C cast from a float to a 16-bit integer used by [astype(np.int16)]:
    the fraction is dropped (rounding towards zero) and the integer is
    reduced to the signed 16-bit range.  The cast of a NaN or an infinity is
    not defined by C; it is given the value 0 here and
    [clip_nan_to_num_finite] below shows that the handler never casts
    one, as [scale_clip_normalize] shows that the reduction to 16 bits
    never wraps. *)
Definition trunc (x : float32) : Z :=
  match x with
  | S754_finite s m e =>
      let mag := if 0 <=? e then Z.shiftl (Zpos m) e
                 else Z.shiftr (Zpos m) (- e) in
      if s then - mag else mag
  | _ => 0
  end.

Definition wrap16 (z : Z) : Z := (z + 32768) mod 65536 - 32768.

Definition to_int16 (x : float32) : Z := wrap16 (trunc x).

End Float32.

Abbreviation float32 := Float32.float32.

(** ** The numpy operations the handler uses *)

(** Python's [len], an integer. *)
Definition len {A : Type} (l : list A) : Z := Z.of_nat (length l).

(** [np.frombuffer(buf, dtype=np.float32)]: the bytes four by four; numpy
    raises [ValueError] when the size is not a multiple of the item size. *)
Fixpoint float32_items (buf : list byte) : list float32 :=
  match buf with
  | b0 :: b1 :: b2 :: b3 :: rest => Float32.of_bytes b0 b1 b2 b3 :: float32_items rest
  | _ => []
  end.

Definition frombuffer_float32 (buf : list byte) : outcome (list float32) :=
  if len buf mod 4 =? 0
  then Normal (float32_items buf)
  else Raised "buffer size must be a multiple of element size".

(** [np.nan_to_num(x, nan=0.0, posinf=1.0, neginf=-1.0)] on one sample. *)
Definition nan_to_num (x : float32) : float32 :=
  match x with
  | S754_nan => Float32.zero
  | S754_infinity false => Float32.one
  | S754_infinity true => Float32.minus_one
  | _ => x
  end.

(** [np.maximum] and [np.minimum] on one pair: the first argument when it is
    the larger (smaller) one or a NaN, the second otherwise. *)
Definition np_maximum (in1 in2 : float32) : float32 :=
  if Float32.leb in2 in1 || Float32.isnan in1 then in1 else in2.

Definition np_minimum (in1 in2 : float32) : float32 :=
  if Float32.leb in1 in2 || Float32.isnan in1 then in1 else in2.

(** [np.clip(x, a_min, a_max)], that is
    [np.minimum(a_max, np.maximum(x, a_min))]. *)
Definition np_clip (x a_min a_max : float32) : float32 :=
  np_minimum a_max (np_maximum x a_min).

(** [(float_data * 32767).astype(np.int16)] on one sample. *)
Definition scale_to_int16 (x : float32) : Z :=
  Float32.to_int16 (Float32.mul x (Float32.of_Z 32767)).

(** A 16-bit sample, little-endian, two's complement. *)
Definition byte_of_Z (z : Z) : byte :=
  match Byte.of_N (Z.to_N (z mod 256)) with
  | Some b => b
  | None => x00
  end.

Definition int16_to_bytes (v : Z) : list byte :=
  let u := v mod 65536 in
  [byte_of_Z u; byte_of_Z (Z.shiftr u 8)].

Definition int16_of_bytes (b0 b1 : byte) : Z :=
  Float32.wrap16 (Z.of_N (Byte.to_N b0) + 256 * Z.of_N (Byte.to_N b1)).

(** An int16 array: its samples and numpy's [writeable] flag. *)
Record ndarray : Type := mk_ndarray {
  items : list Z;
  writeable : bool
}.

(** [a.tobytes()] *)
Definition tobytes (a : ndarray) : list byte :=
  flat_map int16_to_bytes (items a).

Fixpoint int16_items (buf : list byte) : list Z :=
  match buf with
  | b0 :: b1 :: rest => int16_of_bytes b0 b1 :: int16_items rest
  | _ => []
  end.

(** [np.frombuffer(buf, dtype=np.int16)] on a [bytes] object.  The array is a
    view of the immutable buffer, so numpy clears its [writeable] flag. *)
Definition frombuffer_int16 (buf : list byte) : outcome ndarray :=
  if len buf mod 2 =? 0
  then Normal (mk_ndarray (int16_items buf) false)
  else Raised "buffer size must be a multiple of element size".

(** [a[i]] for an index in range ([0] stands for the out-of-range read, which
    the loops below never make). *)
Definition getitem (a : ndarray) (i : nat) : Z := nth i (items a) 0.

(** [a[i] = v]: numpy refuses to write through a read-only array. *)
Definition setitem (a : ndarray) (i : nat) (v : Z) : outcome ndarray :=
  if writeable a
  then Normal (mk_ndarray (<[i := v]> (items a)) true)
  else Raised "assignment destination is read-only".

(** [np.abs(np.diff(a.astype(np.float32)))]: every sample and every
    difference of two samples is an integer below [2^24] in magnitude, hence
    exact in binary32, so the differences are computed on integers. *)
Fixpoint abs_diff (l : list Z) : list Z :=
  match l with
  | x :: ((y :: _) as tl) => Z.abs (y - x) :: abs_diff tl
  | _ => []
  end.

(** [np.max] of a non-empty list of non-negative numbers. *)
Definition np_max (l : list Z) : Z := fold_right Z.max 0 l.

(** ** Audio ingest: lines 193-259 of [recognize_audio_stream] *)

(** Lines 195-210, the body of the first inner [try]: float32 bytes to
    int16 samples.  [None] is the early return on an empty array. *)
Definition convert_float32 (audio_data : list byte) : outcome (option (list Z)) :=
  match frombuffer_float32 audio_data with
  | Raised e => Raised e
  | Normal float_data =>
      if len float_data =? 0 then Normal None
      else
        let float_data :=
          if existsb Float32.isnan float_data || existsb Float32.isinf float_data
          then map nan_to_num float_data
          else float_data in
        let float_data :=
          map (fun x => np_clip x Float32.minus_one Float32.one) float_data in
        Normal (Some (map scale_to_int16 float_data))
  end.

(** One turn of the loop of lines 248-250. *)
Definition declick_step (audio_samples : ndarray) (i : nat) : outcome ndarray :=
  if 20000 <? Z.abs (getitem audio_samples i - getitem audio_samples (i - 1))
  then setitem audio_samples i (getitem audio_samples (i - 1))
  else Normal audio_samples.

(** [for i in range(1, len(audio_samples))], stopped by the first
    exception. *)
Fixpoint declick_loop (audio_samples : ndarray) (range : list nat) : outcome ndarray :=
  match range with
  | [] => Normal audio_samples
  | i :: range' =>
      match declick_step audio_samples i with
      | Normal a' => declick_loop a' range'
      | Raised e => Raised e
      end
  end.

Definition max_bytes : Z := 16000 * 2.
Definition min_samples : Z := 160.

(** What lines 223-259 hand down to the registry part of the handler. *)
Inductive prepared : Type :=
| TooShort
| Pcm (audio_bytes : list byte) (padded : bool).

(** Lines 242-251: the declick pass over the samples read back from the
    bytes. *)
Definition declick (audio_samples : ndarray) (audio_bytes : list byte)
  : outcome (ndarray * list byte) :=
  if 1 <? len (items audio_samples) then
    let diff := abs_diff (items audio_samples) in
    let max_diff := np_max diff in
    if 20000 <? max_diff then
      match declick_loop audio_samples
              (seq 1 (length (items audio_samples) - 1)) with
      | Normal a' => Normal (a', tobytes a')
      | Raised e => Raised e
      end
    else Normal (audio_samples, audio_bytes)
  else Normal (audio_samples, audio_bytes).

(** Lines 253-259: zero padding up to [min_samples].  The flag tells whether
    the branch was taken. *)
Definition pad_to_minimum (audio_samples : ndarray) (audio_bytes : list byte)
  : ndarray * list byte * bool :=
  if len (items audio_samples) <? min_samples then
    let padding :=
      repeat 0 (Z.to_nat (min_samples - len (items audio_samples))) in
    let audio_samples := mk_ndarray (items audio_samples ++ padding) true in
    (audio_samples, tobytes audio_samples, true)
  else (audio_samples, audio_bytes, false).

(** Lines 223-259. *)
Definition prepare_pcm (int16_data : list Z) : outcome prepared :=
  let audio_bytes := tobytes (mk_ndarray int16_data true) in
  if len audio_bytes <? 640 then Normal TooShort
  else
    let audio_bytes :=
      if negb (len audio_bytes mod 2 =? 0)
      then take (length audio_bytes - 1) audio_bytes
      else audio_bytes in
    let audio_bytes :=
      if max_bytes <? len audio_bytes
      then take (Z.to_nat max_bytes) audio_bytes
      else audio_bytes in
    match frombuffer_int16 audio_bytes with
    | Raised e => Raised e
    | Normal audio_samples =>
        match declick audio_samples audio_bytes with
        | Raised e => Raised e
        | Normal (audio_samples, audio_bytes) =>
            let '(_, audio_bytes, padded) :=
              pad_to_minimum audio_samples audio_bytes in
            Normal (Pcm audio_bytes padded)
        end
    end.

(** ** The service state *)

Definition MODEL_PATH : string := "./public/models/vosk-model-small-en-us-0.15".

(** An engine handle (a [vosk.KaldiRecognizer] object) and a
    [threading.Lock] object are known by their identity. *)
Definition Handle : Type := nat.
Definition LockRef : Type := nat.

Inductive Model : Type := VoskModel (path : string).

Inductive JValue : Type :=
| JStr (s : string)
| JNum (z : Z)
| JBool (b : bool)
| JNull.

(** The calls made to the engine, in order. *)
Inductive EngineCall : Type :=
| CallKaldiRecognizer
| CallAcceptWaveform (h : Handle) (audio : list byte)
| CallResult (h : Handle)
| CallPartialResult (h : Handle)
| CallFinalResult (h : Handle).

(** The recognition engine: its own state and the five operations the
    service calls, each of which may raise. *)
Record Engine : Type := {
  estate : Type;
  KaldiRecognizer : option Model -> Z -> estate -> outcome Handle * estate;
  AcceptWaveform : Handle -> list byte -> estate -> outcome bool * estate;
  Result : Handle -> estate -> outcome string * estate;
  PartialResult : Handle -> estate -> outcome string * estate;
  FinalResult : Handle -> estate -> outcome string * estate
}.

(** A request to [/recognize_stream]. *)
Record Request : Type := {
  header_session_id : option string;        (* X-Session-Id *)
  arg_session_id : option string;           (* ?session_id= *)
  remote_addr : option string;
  header_end_of_utterance : option string;  (* X-End-Of-Utterance *)
  data : list byte
}.

(** [jsonify(body), status] *)
Record Response : Type := {
  status : Z;
  body : list (string * JValue)
}.

Definition truthy (s : option string) : bool :=
  match s with
  | Some s => negb (String.eqb s EmptyString)
  | None => false
  end.

(** [a or b] on optional strings. *)
Definition py_or (a b : option string) : option string :=
  if truthy a then a else b.

Definition lower_ascii (c : ascii) : ascii :=
  let n := nat_of_ascii c in
  if ((65 <=? n) && (n <=? 90))%nat then ascii_of_nat (n + 32) else c.

(** [s.lower()] on the ASCII letters. *)
Fixpoint lower (s : string) : string :=
  match s with
  | EmptyString => EmptyString
  | String c s' => String (lower_ascii c) (lower s')
  end.

(** Lines 139-142. *)
Definition session_id_of (req : Request) : string :=
  let session_id := py_or (header_session_id req) (arg_session_id req) in
  if negb (truthy session_id)
  then default "default" (py_or (remote_addr req) (Some "default"))
  else default EmptyString session_id.

(** Line 143. *)
Definition end_of_utt_of (req : Request) : bool :=
  let v := lower (default "0" (header_end_of_utterance req)) in
  String.eqb v "1" || String.eqb v "true" || String.eqb v "yes".

(** [result.get(key, dflt)] *)
Definition dict_get (d : gmap string JValue) (key : string) (dflt : JValue) : JValue :=
  default dflt (d !! key).

Section Service.

Context (E : Engine).
(** [json.loads], from the Python standard library. *)
Context (json_loads : string -> outcome (gmap string JValue)).

(** The module-level variables, the lock objects they refer to, the
    engine, and the record of the engine calls made so far. *)
Record State : Type := mk_state {
  model : option Model;
  rec : option Handle;
  recognizers : gmap string Handle;
  session_locks : gmap string LockRef;
  session_closed : gset string;
  lock_heap : list bool;          (* [true]: the lock is held *)
  engine : estate E;
  calls : list EngineCall
}.

Definition set_rec (r : option Handle) (st : State) : State :=
  mk_state (model st) r (recognizers st) (session_locks st)
           (session_closed st) (lock_heap st) (engine st) (calls st).

Definition set_recognizers (m : gmap string Handle) (st : State) : State :=
  mk_state (model st) (rec st) m (session_locks st)
           (session_closed st) (lock_heap st) (engine st) (calls st).

Definition set_session_locks (m : gmap string LockRef) (st : State) : State :=
  mk_state (model st) (rec st) (recognizers st) m
           (session_closed st) (lock_heap st) (engine st) (calls st).

Definition set_session_closed (s : gset string) (st : State) : State :=
  mk_state (model st) (rec st) (recognizers st) (session_locks st)
           s (lock_heap st) (engine st) (calls st).

Definition set_lock_heap (h : list bool) (st : State) : State :=
  mk_state (model st) (rec st) (recognizers st) (session_locks st)
           (session_closed st) h (engine st) (calls st).

Definition set_engine (e : estate E) (c : EngineCall) (st : State) : State :=
  mk_state (model st) (rec st) (recognizers st) (session_locks st)
           (session_closed st) (lock_heap st) e (calls st ++ [c]).

(** *** A monad for the handlers

    A handler step runs on the state and yields a value or raises; [None]
    stands for a step that waits on a lock that is held, which no later
    step of the same request can release. *)
Definition M (A : Type) : Type := State -> option (outcome A * State).

Definition ret {A : Type} (a : A) : M A := fun st => Some (Normal a, st).

Definition bind {A B : Type} (m : M A) (k : A -> M B) : M B :=
  fun st =>
    match m st with
    | None => None
    | Some (Normal a, st') => k a st'
    | Some (Raised e, st') => Some (Raised e, st')
    end.

Definition lift {A : Type} (o : outcome A) : M A := fun st => Some (o, st).

Definition gets {A : Type} (f : State -> A) : M A := fun st => Some (Normal (f st), st).

Definition modify (f : State -> State) : M unit := fun st => Some (Normal tt, f st).

(** [try: m  except Exception as e: h e] *)
Definition try_except {A : Type} (m : M A) (h : string -> M A) : M A :=
  fun st =>
    match m st with
    | None => None
    | Some (Normal a, st') => Some (Normal a, st')
    | Some (Raised e, st') => h e st'
    end.

(** [try: m  finally: fin] *)
Definition try_finally {A : Type} (m : M A) (fin : M unit) : M A :=
  fun st =>
    match m st with
    | None => None
    | Some (r, st') =>
        match fin st' with
        | None => None
        | Some (Normal _, st'') => Some (r, st'')
        | Some (Raised e, st'') => Some (Raised e, st'')
        end
    end.

Notation "'do' x <- m ;; k" := (bind m (fun x => k))
  (at level 10, x name, m at level 99, k at level 200, only parsing).

(** *** Locks *)

(** [threading.Lock()]: a new lock, not held. *)
Definition new_lock : M LockRef :=
  fun st =>
    Some (Normal (length (lock_heap st)),
          set_lock_heap (lock_heap st ++ [false]) st).

(** [session_locks.setdefault(session_id, threading.Lock())]: the argument
    is evaluated, then kept only when the key is new. *)
Definition setdefault_lock (session_id : string) : M LockRef :=
  do fresh <- new_lock ;;
  do known <- gets (fun st => session_locks st !! session_id) ;;
  match known with
  | Some lock => ret lock
  | None =>
      do _ <- modify (fun st =>
             set_session_locks (<[session_id := fresh]> (session_locks st)) st) ;;
      ret fresh
  end.

Definition acquire (lock : LockRef) : M unit :=
  fun st =>
    match lock_heap st !! lock with
    | Some false => Some (Normal tt, set_lock_heap (<[lock := true]> (lock_heap st)) st)
    | _ => None
    end.

Definition release (lock : LockRef) : M unit :=
  modify (fun st => set_lock_heap (<[lock := false]> (lock_heap st)) st).

(** [with lock: m] *)
Definition with_lock {A : Type} (lock : LockRef) (m : M A) : M A :=
  do _ <- acquire lock ;; try_finally m (release lock).

(** *** Engine calls *)

Definition engine_call {A : Type} (c : EngineCall)
    (op : estate E -> outcome A * estate E) : M A :=
  fun st => let '(r, e') := op (engine st) in Some (r, set_engine e' c st).

(** [vosk.KaldiRecognizer(model, 16000)] *)
Definition new_recognizer : M Handle :=
  do m <- gets model ;;
  engine_call CallKaldiRecognizer (KaldiRecognizer E m 16000).

Definition accept_waveform (h : Handle) (audio : list byte) : M bool :=
  engine_call (CallAcceptWaveform h audio) (AcceptWaveform E h audio).

Definition result_of (h : Handle) : M string :=
  engine_call (CallResult h) (Result E h).

Definition partial_result_of (h : Handle) : M string :=
  engine_call (CallPartialResult h) (PartialResult E h).

Definition final_result_of (h : Handle) : M string :=
  engine_call (CallFinalResult h) (FinalResult E h).

(** *** Responses *)

Definition error_response (code : Z) (msg : string) : Response :=
  {| status := code;
     body := [("error", JStr msg); ("success", JBool false)] |}.

Definition text_response (text : JValue) (type : string) : Response :=
  {| status := 200;
     body := [("text", text); ("success", JBool true); ("type", JStr type)] |}.

Definition scored_response (text confidence : JValue) (type : string) : Response :=
  {| status := 200;
     body := [("text", text); ("confidence", confidence);
              ("success", JBool true); ("type", JStr type)] |}.

Definition model_not_initialised : Response :=
  error_response 500 "Vosk 模型未初始化".

(** *** [recognize_audio_stream] *)

(** Lines 150-174: the end-of-utterance branch. *)
Definition end_of_utterance (session_id : string) (lock : LockRef) : M Response :=
  with_lock lock
    (do rec_session <- gets (fun st => recognizers st !! session_id) ;;
     do _ <- modify (fun st => set_recognizers (delete session_id (recognizers st)) st) ;;
     do _ <- modify (fun st => set_session_closed ({[session_id]} ∪ session_closed st) st) ;;
     try_finally
       match rec_session with
       | None => ret (text_response (JStr EmptyString) "final")
       | Some rec_session =>
           do result_str <- final_result_of rec_session ;;
           do result <- (if String.eqb result_str EmptyString then ret ∅
                      else lift (json_loads result_str)) ;;
           ret (scored_response (dict_get result "text" (JStr EmptyString))
                                (dict_get result "confidence" (JNum 0)) "final")
       end
       (do _ <- modify (fun st =>
               set_session_locks (delete session_id (session_locks st)) st) ;;
        modify (fun st =>
               set_session_closed (session_closed st ∖ {[session_id]}) st))).

(** Lines 272-283: the session's recognizer, created and registered when
    there is none; the right injection is the early error return. *)
Definition recognizer_for (session_id : string) : M (Handle + Response) :=
  do local_rec <- gets (fun st => recognizers st !! session_id) ;;
  match local_rec with
  | Some local_rec => ret (inl local_rec)
  | None =>
      try_except
        (do local_rec <- new_recognizer ;;
         do _ <- modify (fun st =>
                set_recognizers (<[session_id := local_rec]> (recognizers st)) st) ;;
         ret (inl local_rec))
        (fun e => ret (inr (error_response 500 ("创建识别器失败: " ++ e))))
  end.

(** Lines 286-305. *)
Definition recognize (local_rec : Handle) (audio_bytes : list byte) : M Response :=
  do accept_result <- accept_waveform local_rec audio_bytes ;;
  if accept_result : bool then
    do result_str <- result_of local_rec ;;
    do result <- lift (json_loads result_str) ;;
    ret (scored_response (dict_get result "text" (JStr EmptyString))
                         (dict_get result "confidence" (JNum 0)) "final")
  else
    do partial_str <- partial_result_of local_rec ;;
    do partial <- lift (json_loads partial_str) ;;
    ret (text_response (dict_get partial "partial" (JStr EmptyString)) "partial").

(** Lines 262-305: the part of the handler that works on the registry. *)
Definition feed_session (session_id : string) (audio_bytes : list byte) : M Response :=
  do lock <- setdefault_lock session_id ;;
  with_lock lock
    (do closed <- gets session_closed ;;
     if decide (session_id ∈ closed) then ret (text_response (JStr EmptyString) "partial")
     else
       do r <- recognizer_for session_id ;;
       match r with
       | inr early => ret early
       | inl local_rec => recognize local_rec audio_bytes
       end).

(** Lines 177-314: the audio branch. *)
Definition audio_branch (session_id : string) (audio_data : list byte) : M Response :=
  if len audio_data =? 0 then ret (error_response 400 "音频数据为空")
  else if negb (len audio_data mod 4 =? 0) then
    ret (error_response 400
           ("音频数据长度无效: " ++ pretty (len audio_data) ++ " bytes，应为4的倍数"))
  else
    match convert_float32 audio_data with
    | Raised conv_error =>
        ret (error_response 400 ("数据转换失败: " ++ conv_error))
    | Normal None => ret (error_response 400 "Float32数据为空")
    | Normal (Some int16_data) =>
        try_except
          (do p <- lift (prepare_pcm int16_data) ;;
           match p with
           | TooShort => ret (text_response (JStr EmptyString) "partial")
           | Pcm audio_bytes _ => feed_session session_id audio_bytes
           end)
          (fun vosk_error =>
             ret (error_response 500 ("Vosk处理失败: " ++ vosk_error)))
    end.

(** Lines 126-324. *)
Definition recognize_audio_stream (req : Request) : M Response :=
  do m <- gets model ;;
  if negb (bool_decide (is_Some m)) then ret model_not_initialised
  else
    try_except
      (let session_id := session_id_of req in
       let end_of_utt := end_of_utt_of req in
       do lock <- setdefault_lock session_id ;;
       if end_of_utt then end_of_utterance session_id lock
       else audio_branch session_id (data req))
      (fun e => ret (error_response 500 e)).

(** *** [reset_recognizer], lines 327-347 *)
Definition reset_recognizer : M Response :=
  do m <- gets model ;;
  if negb (bool_decide (is_Some m)) then ret model_not_initialised
  else
    try_except
      (do r <- new_recognizer ;;
       do _ <- modify (set_rec (Some r)) ;;
       ret {| status := 200;
              body := [("success", JBool true); ("message", JStr "识别器已重置")] |})
      (fun e => ret (error_response 500 e)).

End Service.

Arguments mk_state {E}.
Arguments model {E}.
Arguments rec {E}.
Arguments recognizers {E}.
Arguments session_locks {E}.
Arguments session_closed {E}.
Arguments lock_heap {E}.
Arguments engine {E}.
Arguments calls {E}.

(** ** What the lock preparation of line 146 leaves behind *)

(** The lock [setdefault] returns for a session: the registered one, or the
    lock just created. *)
Definition lock_of {E : Engine} (session_id : string) (st : State E) : LockRef :=
  default (length (lock_heap st)) (session_locks st !! session_id).

(** The state after [session_locks.setdefault(session_id, threading.Lock())]. *)
Definition with_lock_entry {E : Engine} (session_id : string) (st : State E) : State E :=
  mk_state (model st) (rec st) (recognizers st)
    (match session_locks st !! session_id with
     | Some _ => session_locks st
     | None => <[session_id := length (lock_heap st)]> (session_locks st)
     end)
    (session_closed st) (lock_heap st ++ [false]) (engine st) (calls st).

(** The lock registered for a session, if any, is not held: no other request
    of that session is in flight. *)
Definition lock_free {E : Engine} (session_id : string) (st : State E) : Prop :=
  forall lock, session_locks st !! session_id = Some lock ->
               lock_heap st !! lock = Some false.

(** ** Sequential runs *)

(** Between two requests: the model is loaded, no session is marked closed,
    no lock is held and every registered lock exists. *)
Definition quiescent {E : Engine} (st : State E) : Prop :=
  is_Some (model st) /\
  session_closed st = ∅ /\
  Forall (eq false) (lock_heap st) /\
  forall session_id lock,
    session_locks st !! session_id = Some lock ->
    (lock < length (lock_heap st))%nat.

(** What a request may change of the model, the closed markers, the lock map
    and the locks: no marker is added, a lock entry is kept or refers to an
    existing lock, the locks that were there are as they were and the new
    ones are free. *)
Definition frame {E : Engine} (st st' : State E) : Prop :=
  model st' = model st /\
  (forall x, x ∈ session_closed st' -> x ∈ session_closed st) /\
  (forall session_id lock,
     session_locks st' !! session_id = Some lock ->
     session_locks st !! session_id = Some lock \/
     (lock < length (lock_heap st'))%nat) /\
  exists k, lock_heap st' = lock_heap st ++ repeat false k.

(** The states a sequential run goes through, from a successful start. *)
Inductive reachable {E : Engine}
    (json_loads : string -> outcome (gmap string JValue)) : State E -> Prop :=
| reach_start (h : Handle) (e : estate E) :
    reachable json_loads
      (mk_state (Some (VoskModel MODEL_PATH)) (Some h) ∅ ∅ ∅ [] e [])
| reach_stream (st st' : State E) (req : Request) (r : outcome Response) :
    reachable json_loads st ->
    recognize_audio_stream E json_loads req st = Some (r, st') ->
    reachable json_loads st'
| reach_reset (st st' : State E) (r : outcome Response) :
    reachable json_loads st ->
    reset_recognizer E st = Some (r, st') ->
    reachable json_loads st'.

(** ** The normaliser in the words of the specification *)

Module Spec.

(** Step 2: NaN becomes 0.0, +Infinity 1.0, -Infinity -1.0. *)
Definition sanitize_non_finite (x : float32) : float32 :=
  if Float32.isnan x then Float32.zero
  else match x with
       | S754_infinity false => Float32.one
       | S754_infinity true => Float32.minus_one
       | _ => x
       end.

(** Step 3: clamp to the closed interval from -1.0 to 1.0. *)
Definition clamp (x : float32) : float32 :=
  if SFltb x Float32.minus_one then Float32.minus_one
  else if SFltb Float32.one x then Float32.one
  else x.

(** Step 4: multiply by 32767 and truncate to an integer, which is to fit
    16 bits. *)
Definition quantize (x : float32) : Z :=
  Float32.trunc (Float32.mul x (Float32.of_Z 32767)).

Definition normalize_sample (x : float32) : Z :=
  quantize (clamp (sanitize_non_finite x)).

(** Step 8: one pass from left to right; a sample further than 20000 from
    its predecessor, as replaced, takes the predecessor's value. *)
Fixpoint declick_from (prev : Z) (l : list Z) : list Z :=
  match l with
  | [] => []
  | x :: tl =>
      let x' := if 20000 <? Z.abs (x - prev) then prev else x in
      x' :: declick_from x' tl
  end.

Definition declick (l : list Z) : list Z :=
  match l with
  | [] => []
  | x :: tl => x :: declick_from x tl
  end.

End Spec.

(** ** Test doubles *)

(** An engine that numbers its handles, never finds an utterance boundary,
    and whose [AcceptWaveform] raises when [accept_fails] is set. *)
Definition double_engine (accept_fails : bool) : Engine := {|
  estate := nat;
  KaldiRecognizer := fun _ _ n => (Normal n, S n);
  AcceptWaveform := fun _ _ n =>
    if accept_fails then (Raised "decoder failure", n) else (Normal false, n);
  Result := fun _ n => (Normal "{}", n);
  PartialResult := fun _ n => (Normal "{}", n);
  FinalResult := fun _ n => (Normal "{}", n)
|}.

(** A stand-in for [json.loads] that reads every text as the empty object. *)
Definition double_loads (s : string) : outcome (gmap string JValue) := Normal ∅.

(** The state once [init_vosk_model] has succeeded: the model is loaded, the
    legacy recognizer is handle 0, the registry is empty. *)
Definition loaded_state (accept_fails : bool) : State (double_engine accept_fails) :=
  @mk_state (double_engine accept_fails)
    (Some (VoskModel MODEL_PATH)) (Some 0%nat) ∅ ∅ ∅ [] 1%nat [].

Definition fragment_request (session_id : string) (audio_data : list byte) : Request :=
  {| header_session_id := Some session_id;
     arg_session_id := None;
     remote_addr := Some "127.0.0.1";
     header_end_of_utterance := None;
     data := audio_data |}.

Definition end_request (session_id : string) : Request :=
  {| header_session_id := Some session_id;
     arg_session_id := None;
     remote_addr := Some "127.0.0.1";
     header_end_of_utterance := Some "True";
     data := [] |}.

(** ** Concrete fragments *)

Definition f32_bytes_zero : list byte := [x00; x00; x00; x00].
Definition f32_bytes_one : list byte := [x00; x00; x80; x3f].
Definition f32_bytes_minus_one : list byte := [x00; x00; x80; xbf].
Definition f32_bytes_half : list byte := [x00; x00; x00; x3f].
Definition f32_bytes_nan : list byte := [x00; x00; xc0; x7f].
Definition f32_bytes_pinf : list byte := [x00; x00; x80; x7f].
Definition f32_bytes_ninf : list byte := [x00; x00; x80; xff].
Definition f32_bytes_three : list byte := [x00; x00; x40; x40].

(** 320 samples of silence: 1280 bytes. *)
Definition silence : list byte := concat (repeat f32_bytes_zero 320).

(** 319 samples of silence, then a full-scale sample. *)
Definition click : list byte := concat (repeat f32_bytes_zero 319) ++ f32_bytes_one.

(** Session [s] in use: handle 1, lock 0, not held. *)
Definition active_state : State (double_engine false) :=
  @mk_state (double_engine false)
    (Some (VoskModel MODEL_PATH)) (Some 0%nat)
    {["s" := 1%nat]} {["s" := 0%nat]} ∅ [false] 2%nat [].

(** The mantissa fits the 24 bits of binary32. *)
Definition mantissa_ok (x : float32) : Prop :=
  match x with
  | S754_finite _ m _ => Zpos m < 2 ^ 24
  | _ => True
  end.

(** The loop of line 248 would write at index [i]. *)
Definition jump_at (a : ndarray) (i : nat) : bool :=
  20000 <? Z.abs (getitem a i - getitem a (i - 1)).

(** ** The upload path, the health check and the start of the service *)

Definition set_model {E : Engine} (m : option Model) (st : State E) : State E :=
  mk_state m (rec st) (recognizers st) (session_locks st)
           (session_closed st) (lock_heap st) (engine st) (calls st).

(** The module as loaded, lines 22-29: no model, no recognizer, an empty
    registry. *)
Definition blank_state {E : Engine} (e : estate E) : State E :=
  @mk_state E None None ∅ ∅ ∅ [] e [].

(** What [wave.open] reads from a file: the header fields the handler looks
    at and the frames [readframes(getnframes())] returns. *)
Record WavFile : Type := {
  nchannels : Z;
  sampwidth : Z;
  framerate : Z;
  frames : list byte
}.

(** The 400 message of line 91. *)
Definition unsupported_format (wf : WavFile) : string :=
  "音频格式不支持。需要: 单声道, 16位, 16kHz。当前: " ++ pretty (nchannels wf)
  ++ "声道, " ++ pretty (sampwidth wf * 8) ++ "位, " ++ pretty (framerate wf)
  ++ "Hz".

(** A 16-bit sample. *)
Definition in_int16 (v : Z) : Prop := - 32768 <= v < 32768.

Section Legacy.

Context (E : Engine).
Context (json_loads : string -> outcome (gmap string JValue)).
(** [wave.open] and the reads on the open file, from the Python standard
    library; [os.path.exists] and [vosk.Model]. *)
Context (wave_open : list byte -> outcome WavFile).
Context (path_exists : string -> bool).
Context (load_model : string -> outcome Model).

Notation "'do' x <- m ;; k" := (bind E m (fun x => k))
  (at level 10, x name, m at level 99, k at level 200, only parsing).

(** [init_vosk_model], lines 34-51. *)
Definition init_vosk_model : M E bool :=
  if negb (path_exists MODEL_PATH) then ret E false
  else
    try_except E
      (do m <- lift E (load_model MODEL_PATH) ;;
       do _ <- modify E (set_model (Some m)) ;;
       do r <- new_recognizer E ;;
       do _ <- modify E (set_rec E (Some r)) ;;
       ret E true)
      (fun e => ret E false).

(** [health_check], lines 54-59. *)
Definition health_check : M E Response :=
  do m <- gets E model ;;
  ret E {| status := 200;
           body := [("status", JStr "ok");
                    ("model_loaded", JBool (bool_decide (is_Some m)))] |}.

(** [recognize_audio], lines 62-123.  [audio] is the content of
    [request.files['audio']] when the key is there; [tmp] holds the contents
    of the temporary files the handler has created and not removed. *)
Definition recognize_audio (audio : option (list byte)) (tmp : list (list byte))
  : M E (Response * list (list byte)) :=
  do m <- gets E model ;;
  do r <- gets E rec ;;
  match m, r with
  | Some _, Some rec_ =>
      match audio with
      | None => ret E (error_response 400 "未找到音频文件", tmp)
      | Some content =>
          (* NamedTemporaryFile(delete=False), audio_file.save *)
          let saved := tmp ++ [content] in
          match wave_open content with
          | Raised e => ret E (error_response 500 e, saved)
          | Normal wf =>
              if negb (nchannels wf =? 1) || negb (sampwidth wf =? 2)
                 || negb (framerate wf =? 16000)
              then ret E (error_response 400 (unsupported_format wf), saved)
              else
                let audio_data := frames wf in
                (* os.unlink(tmp_file.name) *)
                try_except E
                  (do resp <- recognize E json_loads rec_ audio_data ;;
                   ret E (resp, tmp))
                  (fun e => ret E (error_response 500 e, tmp))
          end
      end
  | _, _ => ret E (model_not_initialised, tmp)
  end.

(** [__main__], lines 349-364: the service serves requests only when
    [init_vosk_model] returned [True]. *)
Definition start (e : estate E) : option (State E) :=
  match init_vosk_model (blank_state e) with
  | Some (Normal true, st) => Some st
  | _ => None
  end.

End Legacy.

(** The first of the candidates that Python takes for true, or the
    default. *)
Fixpoint first_truthy (candidates : list (option string)) (dflt : string) : string :=
  match candidates with
  | [] => dflt
  | c :: rest => if truthy c then default dflt c else first_truthy rest dflt
  end.

(** One request served: any of the four routes. *)
Inductive step {E : Engine}
    (json_loads : string -> outcome (gmap string JValue))
    (wave_open : list byte -> outcome WavFile) : State E -> State E -> Prop :=
| step_stream (req : Request) (r : outcome Response) (st st' : State E) :
    recognize_audio_stream E json_loads req st = Some (r, st') ->
    step json_loads wave_open st st'
| step_reset (r : outcome Response) (st st' : State E) :
    reset_recognizer E st = Some (r, st') ->
    step json_loads wave_open st st'
| step_upload (audio : option (list byte)) (tmp : list (list byte))
    (r : outcome (Response * list (list byte))) (st st' : State E) :
    recognize_audio E json_loads wave_open audio tmp st = Some (r, st') ->
    step json_loads wave_open st st'
| step_health (r : outcome Response) (st st' : State E) :
    health_check E st = Some (r, st') ->
    step json_loads wave_open st st'.

(** A stand-in for [wave.open]: an empty file is refused, the first byte of
    any other is its channel count and the rest its frames, 16 bits at
    16 kHz. *)
Definition double_wave_open (content : list byte) : outcome WavFile :=
  match content with
  | [] => Raised "file does not start with RIFF id"
  | b :: rest =>
      Normal {| nchannels := Z.of_N (Byte.to_N b); sampwidth := 2;
                framerate := 16000; frames := rest |}
  end.

(** Stand-ins for [os.path.exists] and [vosk.Model]. *)
Definition double_path_exists (path : string) : bool := true.

Definition double_load_model (path : string) : outcome Model :=
  Normal (VoskModel path).

(** An engine on which every operation raises. *)
Definition failing_engine : Engine := {|
  estate := nat;
  KaldiRecognizer := fun _ _ n => (Raised "engine failure", n);
  AcceptWaveform := fun _ _ n => (Raised "engine failure", n);
  Result := fun _ n => (Raised "engine failure", n);
  PartialResult := fun _ n => (Raised "engine failure", n);
  FinalResult := fun _ n => (Raised "engine failure", n)
|}.

(** The model loaded and no session, on the failing engine. *)
Definition failing_loaded : State failing_engine :=
  @mk_state failing_engine
    (Some (VoskModel MODEL_PATH)) (Some 0%nat) ∅ ∅ ∅ [] 0%nat [].

(** Session [s] in use on the failing engine. *)
Definition failing_active : State failing_engine :=
  @mk_state failing_engine
    (Some (VoskModel MODEL_PATH)) (Some 0%nat)
    {["s" := 1%nat]} {["s" := 0%nat]} ∅ [false] 0%nat [].

(** The state the test double starts in. *)
Definition started_state : State (double_engine false) :=
  @mk_state (double_engine false)
    (Some (VoskModel MODEL_PATH)) (Some 0%nat) ∅ ∅ ∅ [] 1%nat
    [CallKaldiRecognizer].

(** The state of the test double after a start and one silent fragment for
    session [s]. *)
Definition active_run_state : State (double_engine false) :=
  @mk_state (double_engine false)
    (Some (VoskModel MODEL_PATH)) (Some 0%nat)
    {["s" := 1%nat]} {["s" := 0%nat]} ∅ [false; false] 2%nat
    [CallKaldiRecognizer; CallKaldiRecognizer;
     CallAcceptWaveform 1%nat (repeat x00 640); CallPartialResult 1%nat].

(** An end-of-utterance request that carries a body. *)
Definition end_request_with (session_id : string) (audio_data : list byte) : Request :=
  {| header_session_id := Some session_id;
     arg_session_id := None;
     remote_addr := Some "127.0.0.1";
     header_end_of_utterance := Some "yes";
     data := audio_data |}.

(** Every session that has a recognizer has a lock entry. *)
Definition sessions_locked {E : Engine} (st : State E) : Prop :=
  forall session_id,
    is_Some (recognizers st !! session_id) ->
    is_Some (session_locks st !! session_id).

(** A field of a JSON object answer, as the client reads it. *)
Fixpoint field (key : string) (fields : list (string * JValue)) : option JValue :=
  match fields with
  | [] => None
  | (k, v) :: rest => if String.eqb k key then Some v else field key rest
  end.

(** An answer whose [success] flag agrees with its status: 200 with
    [success] true and no [error], or 400 or 500 with [success] false and an
    [error] text. *)
Definition coherent_answer (resp : Response) : Prop :=
  (status resp = 200 /\
   field "success" (body resp) = Some (JBool true) /\
   field "error" (body resp) = None) \/
  ((status resp = 400 \/ status resp = 500) /\
   field "success" (body resp) = Some (JBool false) /\
   exists msg, field "error" (body resp) = Some (JStr msg)).

(** A recognition result: a [text] and a [type] that is [partial] or
    [final]. *)
Definition recognition_answer (resp : Response) : Prop :=
  is_Some (field "text" (body resp)) /\
  (field "type" (body resp) = Some (JStr "partial") \/
   field "type" (body resp) = Some (JStr "final")).

(** * Properties *)

(** ** Sanity checks on concrete samples *)

Example convert_samples :
  convert_float32 (f32_bytes_zero ++ f32_bytes_one ++ f32_bytes_minus_one
                   ++ f32_bytes_half ++ f32_bytes_three)
  = Normal (Some [0; 32767; -32767; 16383; 32767]).
Proof. vm_compute. reflexivity. Qed.

Example convert_non_finite :
  convert_float32 (f32_bytes_nan ++ f32_bytes_pinf ++ f32_bytes_ninf)
  = Normal (Some [0; 32767; -32767]).
Proof. vm_compute. reflexivity. Qed.

(** ** Lengths through the normaliser *)

Lemma len_nonneg {A : Type} (l : list A) : 0 <= len l.
Proof. unfold len. lia. Qed.

Lemma len_tobytes (a : ndarray) : len (tobytes a) = 2 * len (items a).
Proof.
  unfold tobytes, len. induction (items a) as [|x l IH]; simpl; [reflexivity|].
  lia.
Qed.

Lemma length_int16_items (buf : list byte) :
  (2 * length (int16_items buf) + length buf mod 2 = length buf)%nat.
Proof.
  induction buf as [buf IH] using (induction_ltof1 _ (@length byte)).
  unfold ltof in IH.
  destruct buf as [|b0 [|b1 rest]]; simpl int16_items; [reflexivity..|].
  specialize (IH rest ltac:(simpl; lia)).
  change (length (b0 :: b1 :: rest)) with (2 + length rest)%nat.
  rewrite <- (Nat.Div0.add_mod_idemp_l 2 (length rest) 2).
  simpl length. simpl (2 mod 2)%nat. simpl (0 + _)%nat. lia.
Qed.

Lemma len_int16_items (buf : list byte) :
  len buf mod 2 = 0 -> 2 * len (int16_items buf) = len buf.
Proof.
  intros H. pose proof (length_int16_items buf) as L. unfold len in *.
  assert (length buf mod 2 = 0)%nat as E.
  { apply Nat2Z.inj. rewrite Nat2Z.inj_mod. exact H. }
  lia.
Qed.


(** ** Declick *)

Lemma abs_diff_nth (l : list Z) :
  abs_diff l
  = map (fun i => Z.abs (nth i l 0 - nth (i - 1) l 0)) (seq 1 (length l - 1)).
Proof.
  induction l as [|x [|y tl] IH]; [reflexivity..|].
  change (abs_diff (x :: y :: tl)) with (Z.abs (y - x) :: abs_diff (y :: tl)).
  rewrite IH. simpl length.
  replace (S (length tl) - 1)%nat with (length tl) by lia.
  replace (S (S (length tl)) - 1)%nat with (S (length tl)) by lia.
  change (seq 1 (S (length tl))) with (1%nat :: seq 2 (length tl)).
  rewrite <- (seq_shift (length tl) 1), List.map_cons, List.map_map.
  f_equal. apply List.map_ext_in. intros i Hi. apply in_seq in Hi.
  destruct i as [|i]; [lia|]. simpl. rewrite Nat.sub_0_r. reflexivity.
Qed.

Lemma np_max_exists (f : nat -> Z) (range : list nat) :
  (20000 <? np_max (map f range)) = existsb (fun i => 20000 <? f i) range.
Proof.
  induction range as [|i range IH]; [reflexivity|].
  simpl. rewrite <- IH.
  destruct (20000 <? f i) eqn:A, (20000 <? np_max (map f range)) eqn:B;
    rewrite ?Z.ltb_lt, ?Z.ltb_ge in *; simpl;
    rewrite ?Z.ltb_lt, ?Z.ltb_ge; lia.
Qed.

(** The test of line 246 finds a jump exactly when the loop would. *)
Lemma max_diff_jump (a : ndarray) :
  (20000 <? np_max (abs_diff (items a)))
  = existsb (jump_at a) (seq 1 (length (items a) - 1)).
Proof. rewrite abs_diff_nth. apply np_max_exists. Qed.

(** On a read-only array the loop stops at the first jump it meets. *)
Lemma declick_loop_read_only (a : ndarray) (range : list nat) :
  writeable a = false ->
  declick_loop a range
  = if existsb (jump_at a) range
    then Raised "assignment destination is read-only"
    else Normal a.
Proof.
  intros RO. induction range as [|i range IH]; [reflexivity|].
  simpl. unfold declick_step, setitem. fold (jump_at a i).
  destruct (jump_at a i); simpl; [rewrite RO; reflexivity | exact IH].
Qed.

(** The declick pass on the array read back from the bytes: a buffer
    without a jump goes through unchanged, a buffer with one aborts the
    pass. *)
Lemma declick_read_only (a : ndarray) (audio_bytes : list byte) :
  writeable a = false ->
  declick a audio_bytes
  = if 20000 <? np_max (abs_diff (items a))
    then Raised "assignment destination is read-only"
    else Normal (a, audio_bytes).
Proof.
  intros RO. unfold declick.
  destruct (1 <? len (items a)) eqn:L.
  - destruct (20000 <? np_max (abs_diff (items a))) eqn:J; [|reflexivity].
    rewrite declick_loop_read_only by exact RO.
    rewrite <- max_diff_jump, J. reflexivity.
  - apply Z.ltb_ge in L. unfold len in L.
    destruct (items a) as [|x [|y tl]]; [reflexivity..|simpl length in L; lia].
Qed.

(** Were the array writeable, the loop would compute [Spec.declick]. *)
Lemma declick_loop_writeable (l pre : list Z) (p : Z) :
  declick_loop (mk_ndarray (pre ++ p :: l) true) (seq (S (length pre)) (length l))
  = Normal (mk_ndarray (pre ++ p :: Spec.declick_from p l) true).
Proof.
  revert pre p. induction l as [|x tl IH]; intros pre p; [reflexivity|].
  simpl seq. simpl declick_loop. unfold declick_step, getitem, setitem.
  simpl items. simpl writeable.
  replace (S (length pre) - 1)%nat with (length pre) by lia.
  rewrite !app_nth2 by lia. rewrite Nat.sub_diag.
  replace (S (length pre) - length pre)%nat with 1%nat by lia. simpl nth.
  simpl Spec.declick_from.
  assert (forall v t, pre ++ p :: v :: t = (pre ++ [p]) ++ v :: t) as R
    by (intros v t; rewrite <- app_assoc; reflexivity).
  assert (S (S (length pre)) = S (length (pre ++ [p]))) as Len
    by (rewrite length_app; simpl; lia).
  destruct (20000 <? Z.abs (x - p)).
  - replace (<[S (length pre) := p]> (pre ++ p :: x :: tl))
      with ((pre ++ [p]) ++ p :: tl).
    + rewrite Len, IH, <- R. reflexivity.
    + rewrite <- R.
      replace (S (length pre)) with (length pre + 1)%nat by lia.
      rewrite insert_app_r. reflexivity.
  - rewrite (R x tl), Len, IH, <- R. reflexivity.
Qed.

Lemma declick_writeable (l : list Z) :
  declick_loop (mk_ndarray l true) (seq 1 (length l - 1))
  = Normal (mk_ndarray (Spec.declick l) true).
Proof.
  destruct l as [|x tl]; [reflexivity|].
  replace (length (x :: tl) - 1)%nat with (length tl) by (simpl; lia).
  exact (declick_loop_writeable tl [] x).
Qed.

(** [Spec.declick] leaves a buffer without a jump as it is. *)
Lemma spec_declick_from_fixed (l : list Z) (p : Z) :
  np_max (abs_diff (p :: l)) <= 20000 -> Spec.declick_from p l = l.
Proof.
  revert p. induction l as [|x tl IH]; intros p; [reflexivity|].
  change (abs_diff (p :: x :: tl)) with (Z.abs (x - p) :: abs_diff (x :: tl)).
  change (np_max (Z.abs (x - p) :: abs_diff (x :: tl)))
    with (Z.max (Z.abs (x - p)) (np_max (abs_diff (x :: tl)))).
  intros H. simpl Spec.declick_from.
  destruct (20000 <? Z.abs (x - p)) eqn:J; [apply Z.ltb_lt in J; lia|].
  rewrite IH by lia. reflexivity.
Qed.

Lemma spec_declick_fixed (l : list Z) :
  np_max (abs_diff l) <= 20000 -> Spec.declick l = l.
Proof.
  destruct l as [|x tl]; [reflexivity|]. intros H. simpl.
  rewrite spec_declick_from_fixed by exact H. reflexivity.
Qed.

(** ** The byte-level stage, lines 223-259 *)

Lemma take_max_bytes_len (b : list byte) :
  len (take (Z.to_nat max_bytes) b) = Z.min (len b) 32000.
Proof. unfold len, max_bytes. rewrite length_take. lia. Qed.

Lemma min_even (n : Z) : Z.min (2 * n) 32000 mod 2 = 0.
Proof.
  destruct (Z.min_spec (2 * n) 32000) as [[_ ->]|[_ ->]];
    [rewrite Z.mul_comm; apply Z_mod_mult | reflexivity].
Qed.

Lemma prepare_pcm_short (int16_data : list Z) :
  len (tobytes (mk_ndarray int16_data true)) < 640 ->
  prepare_pcm int16_data = Normal TooShort.
Proof.
  intros S. unfold prepare_pcm. rewrite (proj2 (Z.ltb_lt _ _) S). reflexivity.
Qed.

(** Past the short-circuit the stage has two outcomes: the declick pass
    aborts on a jump, or the bytes of the quantised samples, cut at
    [max_bytes], go on as they are. *)
Lemma prepare_pcm_long (int16_data : list Z) :
  let audio_bytes :=
    take (Z.to_nat max_bytes) (tobytes (mk_ndarray int16_data true)) in
  640 <= len (tobytes (mk_ndarray int16_data true)) ->
  prepare_pcm int16_data
  = if 20000 <? np_max (abs_diff (int16_items audio_bytes))
    then Raised "assignment destination is read-only"
    else Normal (Pcm audio_bytes false).
Proof.
  intros audio_bytes Long. unfold prepare_pcm.
  pose proof (len_tobytes (mk_ndarray int16_data true)) as L0. simpl items in L0.
  set (b0 := tobytes (mk_ndarray int16_data true)) in *.
  rewrite (proj2 (Z.ltb_ge _ _) Long).
  replace (len b0 mod 2 =? 0) with true
    by (symmetry; apply Z.eqb_eq; rewrite L0, Z.mul_comm; apply Z_mod_mult).
  simpl negb. cbv iota.
  assert ((if max_bytes <? len b0 then take (Z.to_nat max_bytes) b0 else b0)
          = audio_bytes) as ->.
  { destruct (max_bytes <? len b0) eqn:Cut; [reflexivity|].
    apply Z.ltb_ge in Cut. unfold audio_bytes. symmetry. apply take_ge.
    unfold len in Cut. lia. }
  assert (len audio_bytes = Z.min (2 * len int16_data) 32000) as L1
    by (unfold audio_bytes; rewrite take_max_bytes_len, L0; reflexivity).
  unfold frombuffer_int16.
  rewrite L1, min_even. simpl (0 =? 0). cbv iota.
  rewrite declick_read_only by reflexivity. simpl items.
  destruct (20000 <? np_max (abs_diff (int16_items audio_bytes))); [reflexivity|].
  unfold pad_to_minimum, min_samples. simpl items.
  assert (2 * len (int16_items audio_bytes) = len audio_bytes) as Li
    by (apply len_int16_items; rewrite L1; apply min_even).
  rewrite (proj2 (Z.ltb_ge (len (int16_items audio_bytes)) 160)) by lia.
  reflexivity.
Qed.

(** What a completed normalisation returns. *)
Lemma prepare_pcm_inv (int16_data : list Z) (audio_bytes : list byte) (padded : bool) :
  prepare_pcm int16_data = Normal (Pcm audio_bytes padded) ->
  padded = false /\ 320 <= len int16_data /\
  len audio_bytes = Z.min (2 * len int16_data) 32000.
Proof.
  intros P.
  pose proof (len_tobytes (mk_ndarray int16_data true)) as L0. simpl items in L0.
  destruct (Z.lt_ge_cases (len (tobytes (mk_ndarray int16_data true))) 640)
    as [Short|Long].
  - rewrite prepare_pcm_short in P by exact Short. discriminate.
  - rewrite prepare_pcm_long in P by exact Long.
    destruct (20000 <? _); [discriminate|].
    injection P as <- <-. rewrite take_max_bytes_len, L0.
    repeat split; lia.
Qed.

(** ** Sample conversion *)

Lemma compare_cont_flip (m : positive) :
  Pos.compare_cont Eq m 8388608 = CompOpp (Pos.compare_cont Eq 8388608 m).
Proof. rewrite (Pos.compare_cont_antisym 8388608 m Eq). reflexivity. Qed.

Lemma minus_one_eq : Float32.minus_one = S754_finite true 8388608 (-23).
Proof. reflexivity. Qed.

Lemma one_eq : Float32.one = S754_finite false 8388608 (-23).
Proof. reflexivity. Qed.

(** On everything but a NaN, numpy's clip is the clamp of the
    specification. *)
Lemma np_clip_clamp (x : float32) :
  Float32.isnan x = false ->
  np_clip x Float32.minus_one Float32.one = Spec.clamp x.
Proof.
  intros NaN. unfold np_clip, np_maximum, np_minimum, Spec.clamp, Float32.leb,
    SFleb, SFltb.
  rewrite minus_one_eq, one_eq.
  destruct x as [s|s| |s m e]; try discriminate NaN.
  - destruct s; reflexivity.
  - destruct s; reflexivity.
  - destruct s; cbn -[Pos.compare_cont Z.compare].
    + rewrite (Z.compare_antisym e (-23)).
      destruct (e ?= -23) eqn:Ce; cbn -[Pos.compare_cont Z.compare]; try reflexivity.
      rewrite compare_cont_flip.
      destruct (Pos.compare_cont Eq 8388608 m); reflexivity.
    + destruct (-23 ?= e) eqn:Ce; cbn -[Pos.compare_cont Z.compare]; try reflexivity.
      apply Z.compare_eq in Ce. subst e.
      destruct (Pos.compare_cont Eq 8388608 m) eqn:Cm; try reflexivity.
      apply Pos.compare_eq in Cm. subst m. reflexivity.
Qed.

Lemma nan_to_num_sanitize (x : float32) : nan_to_num x = Spec.sanitize_non_finite x.
Proof. destruct x as [s|s| |s m e]; reflexivity. Qed.

Lemma nan_to_num_not_nan (x : float32) : Float32.isnan (nan_to_num x) = false.
Proof. destruct x as [s|[|]| |s m e]; reflexivity. Qed.

(** [nan_to_num] changes nothing in an array without NaN and infinities, so
    the test of line 203 only saves the copy. *)
Lemma nan_to_num_finite (l : list float32) :
  existsb Float32.isnan l || existsb Float32.isinf l = false ->
  map nan_to_num l = l.
Proof.
  induction l as [|x l IH]; simpl; [reflexivity|].
  intros H. apply orb_false_elim in H as [H1 H2].
  apply orb_false_elim in H1 as [Hn H1]. apply orb_false_elim in H2 as [Hi H2].
  rewrite IH by (rewrite H1, H2; reflexivity).
  destruct x as [s|s| |s m e]; try discriminate; reflexivity.
Qed.

(** A clipped sample is a number: the cast to int16 never sees a NaN or an
    infinity. *)
Lemma clip_nan_to_num_finite (x : float32) :
  let r := np_clip (nan_to_num x) Float32.minus_one Float32.one in
  Float32.isnan r = false /\ Float32.isinf r = false.
Proof.
  cbv zeta. rewrite np_clip_clamp by apply nan_to_num_not_nan.
  unfold Spec.clamp.
  destruct (SFltb _ Float32.minus_one); [split; reflexivity|].
  destruct (SFltb Float32.one _) eqn:L; [split; reflexivity|].
  destruct x as [s|[|]| |s m e]; split; reflexivity.
Qed.

(** The clamp lands in the closed interval. *)
Lemma clamp_bounds (x : float32) :
  Float32.isnan x = false ->
  SFleb Float32.minus_one (Spec.clamp x) = true /\
  SFleb (Spec.clamp x) Float32.one = true.
Proof.
  intros NaN. rewrite <- np_clip_clamp by exact NaN.
  unfold np_clip, np_maximum, np_minimum, Float32.leb, SFleb.
  rewrite minus_one_eq, one_eq.
  destruct x as [s|s| |s m e]; try discriminate NaN.
  - destruct s; split; reflexivity.
  - destruct s; split; reflexivity.
  - destruct s; cbn -[Pos.compare_cont Z.compare].
    + destruct (-23 ?= e) eqn:Ce; cbn -[Pos.compare_cont Z.compare];
        rewrite ?Ce; try (split; reflexivity).
      destruct (Pos.compare_cont Eq 8388608 m) eqn:Cm;
        cbn -[Pos.compare_cont Z.compare]; rewrite ?Ce, ?Cm; split; reflexivity.
    + destruct (-23 ?= e) eqn:Ce; cbn -[Pos.compare_cont Z.compare];
        rewrite ?Ce; try (split; reflexivity).
      * destruct (Pos.compare_cont Eq 8388608 m) eqn:Cm;
          cbn -[Pos.compare_cont Z.compare]; rewrite ?Ce, ?Cm; try (split; reflexivity).
        rewrite (Z.compare_antisym (-23) e), Ce. simpl CompOpp.
        rewrite compare_cont_flip, Cm. split; reflexivity.
      * rewrite (Z.compare_antisym (-23) e), Ce. split; reflexivity.
Qed.

(** ** The scaled sample fits 16 bits *)

Lemma digits2_pos_lower (p : positive) : 2 ^ (Zpos (digits2_pos p) - 1) <= Zpos p.
Proof.
  induction p as [p IH|p IH|]; simpl digits2_pos; [| |reflexivity].
  - rewrite Pos2Z.inj_succ.
    replace (Z.succ (Z.pos (digits2_pos p)) - 1) with (Z.succ (Z.pos (digits2_pos p) - 1)) by lia.
    rewrite Z.pow_succ_r by lia. lia.
  - rewrite Pos2Z.inj_succ.
    replace (Z.succ (Z.pos (digits2_pos p)) - 1) with (Z.succ (Z.pos (digits2_pos p) - 1)) by lia.
    rewrite Z.pow_succ_r by lia. lia.
Qed.

Lemma shr_1_m (mrs : shr_record) :
  0 <= shr_m mrs -> shr_m (shr_1 mrs) = shr_m mrs / 2.
Proof.
  destruct mrs as [m r s]. simpl shr_m. intros N.
  destruct m as [|p|p]; [reflexivity| |lia].
  destruct p as [p|p|]; simpl shr_1; simpl shr_m.
  - rewrite Pos2Z.inj_xI. apply Z.div_unique with 1; lia.
  - rewrite Pos2Z.inj_xO. apply Z.div_unique with 0; lia.
  - reflexivity.
Qed.

Lemma iter_shr_1_m (n : positive) (mrs : shr_record) :
  0 <= shr_m mrs ->
  shr_m (SpecFloat.iter_pos shr_1 n mrs) = shr_m mrs / 2 ^ Zpos n.
Proof.
  revert mrs. induction n as [n IH|n IH|]; intros mrs N; simpl SpecFloat.iter_pos.
  - assert (0 <= shr_m (shr_1 mrs)) as N1
      by (rewrite shr_1_m by exact N; apply Z.div_pos; lia).
    assert (0 <= shr_m (SpecFloat.iter_pos shr_1 n (shr_1 mrs))) as N2
      by (rewrite IH by exact N1; apply Z.div_pos; lia).
    rewrite IH by exact N2. rewrite IH by exact N1. rewrite shr_1_m by exact N.
    rewrite !Z.div_div by lia.
    f_equal. replace (Z.pos n~1) with (Z.pos n + Z.pos n + 1) by lia.
    rewrite !Z.pow_add_r by lia. change (2 ^ 1) with 2. ring.
  - assert (0 <= shr_m (SpecFloat.iter_pos shr_1 n mrs)) as N2
      by (rewrite IH by exact N; apply Z.div_pos; lia).
    rewrite IH by exact N2. rewrite IH by exact N.
    rewrite !Z.div_div by lia.
    f_equal. replace (Z.pos n~0) with (Z.pos n + Z.pos n) by lia.
    rewrite !Z.pow_add_r by lia. reflexivity.
  - rewrite shr_1_m by exact N. reflexivity.
Qed.

Lemma shr_record_of_loc_m (m : Z) (l : location) : shr_m (shr_record_of_loc m l) = m.
Proof. destruct l as [|[| |]]; reflexivity. Qed.

(** [shr_fexp] divides the mantissa by a power of two and raises the
    exponent by as much; when it shifts at all, the new exponent is the one
    [fexp] asks for. *)
Lemma shr_fexp_spec (m e : Z) (l : location) :
  0 <= m ->
  exists k,
    0 <= k /\
    snd (shr_fexp 24 128 m e l) = e + k /\
    shr_m (fst (shr_fexp 24 128 m e l)) = m / 2 ^ k /\
    (k = 0 \/ e + k = fexp 24 128 (Zdigits2 m + e)).
Proof.
  intros N. unfold shr_fexp, shr.
  destruct (fexp 24 128 (Zdigits2 m + e) - e) as [|n|n] eqn:D.
  - exists 0. simpl. rewrite shr_record_of_loc_m, Z.div_1_r.
    repeat split; [lia..|]. left; reflexivity.
  - exists (Zpos n). simpl fst. simpl snd.
    rewrite iter_shr_1_m by (rewrite shr_record_of_loc_m; exact N).
    rewrite shr_record_of_loc_m. repeat split; [lia|]. right. lia.
  - exists 0. simpl. rewrite shr_record_of_loc_m, Z.div_1_r.
    repeat split; [lia..|]. left; reflexivity.
Qed.

Lemma round_nearest_even_bounds (m : Z) (l : location) :
  m <= round_nearest_even m l <= m + 1.
Proof.
  unfold round_nearest_even. destruct l as [|[| |]]; try lia.
  destruct (Z.even m); lia.
Qed.

Lemma pow2_pos (n : Z) : 0 <= n -> 0 < 2 ^ n.
Proof. intros. apply Z.pow_pos_nonneg; lia. Qed.

(** A product that does not exceed 32767 rounds to a binary32 number whose
    integer part does not exceed 32767 either. *)
Lemma round_below_full_scale (s : bool) (P : positive) (ex : Z) :
  ex < 0 ->
  Zpos P <= 32767 * 2 ^ (- ex) ->
  - 32767 <= Float32.trunc (binary_round_aux 24 128 s (Zpos P) ex loc_Exact) <= 32767.
Proof.
  intros Hex HP. unfold binary_round_aux.
  destruct (shr_fexp_spec (Zpos P) ex loc_Exact ltac:(lia)) as (k1 & K1 & E1 & M1 & F1).
  destruct (shr_fexp 24 128 (Zpos P) ex loc_Exact) as [mrs1 e1].
  simpl fst in *. simpl snd in *.
  set (m2 := round_nearest_even (shr_m mrs1) (loc_of_shr_record mrs1)).
  pose proof (round_nearest_even_bounds (shr_m mrs1) (loc_of_shr_record mrs1)) as B2.
  fold m2 in B2.
  assert (0 <= shr_m mrs1) as N1 by (rewrite M1; apply Z.div_pos; [lia|apply pow2_pos; lia]).
  (* the exponent after the first shift is negative *)
  assert (e1 < 0) as Ne1.
  { destruct F1 as [->|F1]; [lia|]. rewrite E1, F1.
    pose proof (digits2_pos_lower P) as DL. simpl Zdigits2.
    assert (2 ^ (Zpos (digits2_pos P) - 1) < 2 ^ (15 - ex)) as LT.
    { eapply Z.le_lt_trans; [exact DL|]. eapply Z.le_lt_trans; [exact HP|].
      replace (15 - ex) with (15 + - ex) by lia.
      rewrite Z.pow_add_r by lia. pose proof (pow2_pos (- ex) ltac:(lia)).
      change (2 ^ 15) with 32768. lia. }
    apply Z.pow_lt_mono_r_iff in LT; [|lia|lia].
    unfold fexp, emin. lia. }
  (* the shifted mantissa is still below full scale *)
  assert (shr_m mrs1 <= 32767 * 2 ^ (- e1)) as B1.
  { rewrite M1. apply Z.div_le_upper_bound; [apply pow2_pos; lia|].
    replace (- ex) with (k1 + - e1) in HP by lia.
    rewrite Z.pow_add_r in HP by lia. lia. }
  assert (0 <= m2 < 2 ^ (15 - e1)) as Bm2.
  { split; [lia|].
    replace (15 - e1) with (15 + - e1) by lia. rewrite Z.pow_add_r by lia.
    change (2 ^ 15) with 32768.
    assert (2 ^ 1 <= 2 ^ (- e1)) by (apply Z.pow_le_mono_r; lia).
    change (2 ^ 1) with 2 in *. lia. }
  destruct (shr_fexp_spec m2 e1 loc_Exact ltac:(lia)) as (k2 & K2 & E3 & M3 & _).
  destruct (shr_fexp 24 128 m2 e1 loc_Exact) as [mrs3 e3].
  simpl fst in *. simpl snd in *.
  destruct (shr_m mrs3) as [|m3|m3] eqn:Em3; [simpl; lia| |simpl; lia].
  destruct (e3 <=? 128 - 24); [|simpl; lia].
  (* the result is finite *)
  assert (Zpos m3 * 2 ^ k2 <= m2) as Lm3.
  { rewrite M3. rewrite Z.mul_comm. apply Z.mul_div_le. apply pow2_pos; lia. }
  assert (e3 <= 15) as Le3.
  { destruct (Z.le_gt_cases e3 15) as [|G]; [assumption|exfalso].
    assert (2 ^ (15 - e1) <= 2 ^ k2) by (apply Z.pow_le_mono_r; lia).
    pose proof (pow2_pos k2 K2). nia. }
  assert (Zpos m3 < 2 ^ (15 - e3)) as Bm3.
  { apply Z.mul_lt_mono_pos_r with (p := 2 ^ k2); [apply pow2_pos; lia|].
    rewrite <- Z.pow_add_r by lia. replace (15 - e3 + k2) with (15 - e1) by lia.
    lia. }
  assert (0 <= (if 0 <=? e3 then Z.shiftl (Zpos m3) e3
                else Z.shiftr (Zpos m3) (- e3)) <= 32767) as Mag.
  { destruct (0 <=? e3) eqn:Pos.
    - apply Z.leb_le in Pos. rewrite Z.shiftl_mul_pow2 by lia.
      pose proof (pow2_pos e3 Pos).
      assert (Zpos m3 * 2 ^ e3 < 2 ^ (15 - e3) * 2 ^ e3) by (apply Z.mul_lt_mono_pos_r; lia).
      rewrite <- Z.pow_add_r in * by lia.
      replace (15 - e3 + e3) with 15 in * by lia. change (2 ^ 15) with 32768 in *.
      nia.
    - apply Z.leb_gt in Pos. rewrite Z.shiftr_div_pow2 by lia.
      pose proof (pow2_pos (- e3) ltac:(lia)).
      split; [apply Z.div_pos; lia|].
      assert (Zpos m3 / 2 ^ (- e3) < 32768); [|lia].
      apply Z.div_lt_upper_bound; [lia|].
      replace (15 - e3) with (- e3 + 15) in Bm3 by lia.
      rewrite Z.pow_add_r in Bm3 by lia. change (2 ^ 15) with 32768 in Bm3. lia. }
  unfold Float32.trunc. destruct s; lia.
Qed.

Lemma of_bits_mantissa (w : Z) : mantissa_ok (Float32.of_bits w).
Proof.
  unfold Float32.of_bits.
  assert (0 <= Z.land w 8388607 < 2 ^ 23) as B.
  { change 8388607 with (Z.ones 23). rewrite Z.land_ones by lia.
    apply Z.mod_pos_bound. reflexivity. }
  destruct (Z.land (Z.shiftr w 23) 255 =? 255).
  - destruct (Z.land w 8388607 =? 0); exact I.
  - destruct (Z.land (Z.shiftr w 23) 255 =? 0).
    + destruct (Z.land w 8388607) as [|p|p] eqn:M; simpl; try exact I.
      change (2 ^ 23) with 8388608 in B. change (2 ^ 24) with 16777216. lia.
    + simpl mantissa_ok.
      assert (0 < Z.lor (Z.land w 8388607) 8388608 < 2 ^ 24) as L.
      { assert (0 <= Z.lor (Z.land w 8388607) 8388608) as N
          by (apply Z.lor_nonneg; lia).
        assert (Z.lor (Z.land w 8388607) 8388608 <> 0) as NZ.
        { intros Z0. apply Z.lor_eq_0_iff in Z0. lia. }
        split; [lia|]. apply Z.log2_lt_pow2; [lia|].
        rewrite Z.log2_lor by lia.
        change (Z.log2 8388608) with 23.
        destruct (Z.eq_dec (Z.land w 8388607) 0) as [->|NZ'].
        - simpl. lia.
        - assert (Z.log2 (Z.land w 8388607) < 23)
            by (apply Z.log2_lt_pow2; lia).
          lia. }
      rewrite Z2Pos.id by lia. lia.
Qed.

Lemma float32_items_mantissa (buf : list byte) :
  Forall mantissa_ok (float32_items buf).
Proof.
  induction buf as [buf IH] using (induction_ltof1 _ (@length byte)).
  unfold ltof in IH.
  destruct buf as [|b0 [|b1 [|b2 [|b3 rest]]]]; simpl float32_items;
    try apply List.Forall_nil.
  apply List.Forall_cons.
  - apply of_bits_mantissa.
  - apply IH. simpl. lia.
Qed.

Lemma full_scale_eq : Float32.of_Z 32767 = S754_finite false 16776704 (-9).
Proof. reflexivity. Qed.

(** A clamped sample times 32767 has an integer part from -32767 to
    32767: the cast to int16 does not wrap. *)
Lemma clamp_scaled_range (x : float32) :
  mantissa_ok x ->
  Float32.isnan x = false ->
  - 32767 <= Float32.trunc (Float32.mul (Spec.clamp x) (Float32.of_Z 32767)) <= 32767.
Proof.
  intros Hm NaN.
  destruct (clamp_bounds x NaN) as [Lo Hi].
  assert (mantissa_ok (Spec.clamp x)) as Hc.
  { unfold Spec.clamp. destruct (SFltb x Float32.minus_one); [simpl; lia|].
    destruct (SFltb Float32.one x); [simpl; lia|exact Hm]. }
  destruct (Spec.clamp x) as [s|s| |s m e].
  - simpl. lia.
  - destruct s; [discriminate Lo|discriminate Hi].
  - simpl. lia.
  - rewrite full_scale_eq. unfold Float32.mul, SFmul.
    assert (e < -23 \/ (e = -23 /\ Zpos m <= 2 ^ 23)) as Small.
    { rewrite minus_one_eq in Lo. rewrite one_eq in Hi.
      unfold SFleb, SFcompare in Lo, Hi. destruct s.
      - rewrite (Z.compare_antisym e (-23)) in Lo.
        destruct (e ?= -23) eqn:Ce; simpl in Lo;
          [right|left; apply Z.compare_lt_iff; exact Ce|discriminate Lo].
        apply Z.compare_eq in Ce. split; [exact Ce|].
        destruct (Pos.compare_cont Eq 8388608 m) eqn:C; simpl in Lo;
          try discriminate Lo.
        + apply Pos.compare_eq in C. subst m. reflexivity.
        + change (Pos.compare_cont Eq 8388608 m) with (Pos.compare 8388608 m) in C.
          rewrite Pos.compare_gt_iff in C. change (2 ^ 23) with (Zpos 8388608). lia.
      - destruct (e ?= -23) eqn:Ce;
          [right|left; apply Z.compare_lt_iff; exact Ce|discriminate Hi].
        apply Z.compare_eq in Ce. split; [exact Ce|].
        destruct (Pos.compare_cont Eq m 8388608) eqn:C; try discriminate Hi.
        + apply Pos.compare_eq in C. subst m. reflexivity.
        + change (Pos.compare_cont Eq m 8388608) with (Pos.compare m 8388608) in C.
          rewrite Pos.compare_lt_iff in C. change (2 ^ 23) with (Zpos 8388608). lia. }
    apply round_below_full_scale; [lia|].
    simpl in Hc.
    assert (Zpos m <= 2 ^ (- e)) as Bm.
    { destruct Small as [L|[-> L]]; [|exact L].
      assert (2 ^ 24 <= 2 ^ (- e)) by (apply Z.pow_le_mono_r; lia). lia. }
    replace (- (e + -9)) with (- e + 9) by lia.
    rewrite Z.pow_add_r by lia. change (2 ^ 9) with 512.
    rewrite Pos2Z.inj_mul. lia.
Qed.

Lemma wrap16_id (z : Z) : - 32768 <= z < 32768 -> Float32.wrap16 z = z.
Proof.
  intros R. unfold Float32.wrap16. rewrite Z.mod_small by lia. lia.
Qed.

Lemma sanitize_mantissa (x : float32) :
  mantissa_ok x -> mantissa_ok (Spec.sanitize_non_finite x).
Proof.
  destruct x as [s|[|]| |s m e]; simpl; intros H; try exact I; try lia; exact H.
Qed.

Lemma float32_items_nonempty (buf : list byte) :
  len buf <> 0 -> len buf mod 4 = 0 -> len (float32_items buf) <> 0.
Proof.
  intros N A. destruct buf as [|b0 [|b1 [|b2 [|b3 rest]]]];
    try (exfalso; apply N; reflexivity); try discriminate A.
  simpl float32_items. unfold len. simpl length. lia.
Qed.

(** On a sample read from the bytes, the code's clip, product and cast give
    what the three steps of the specification give, within 16 bits. *)
Lemma scale_clip_normalize (x : float32) :
  mantissa_ok x ->
  scale_to_int16 (np_clip (nan_to_num x) Float32.minus_one Float32.one)
  = Spec.normalize_sample x /\
  - 32767 <= Spec.normalize_sample x <= 32767.
Proof.
  intros Hm. unfold Spec.normalize_sample, Spec.quantize, scale_to_int16,
    Float32.to_int16.
  rewrite np_clip_clamp by apply nan_to_num_not_nan.
  rewrite nan_to_num_sanitize.
  assert (Float32.isnan (Spec.sanitize_non_finite x) = false) as NaN
    by (rewrite <- nan_to_num_sanitize; apply nan_to_num_not_nan).
  pose proof (clamp_scaled_range (Spec.sanitize_non_finite x)
                (sanitize_mantissa x Hm) NaN) as R.
  split; [apply wrap16_id; lia | exact R].
Qed.

Lemma convert_float32_valid (audio_data : list byte) :
  len audio_data <> 0 -> len audio_data mod 4 = 0 ->
  convert_float32 audio_data
  = Normal (Some (map Spec.normalize_sample (float32_items audio_data))).
Proof.
  intros N A. unfold convert_float32, frombuffer_float32.
  rewrite (proj2 (Z.eqb_eq _ _) A).
  rewrite (proj2 (Z.eqb_neq _ _) (float32_items_nonempty _ N A)).
  do 2 f_equal.
  pose proof (float32_items_mantissa audio_data) as Ok.
  set (l := float32_items audio_data) in *.
  assert ((if existsb Float32.isnan l || existsb Float32.isinf l
           then map nan_to_num l else l) = map nan_to_num l) as ->.
  { destruct (existsb Float32.isnan l || existsb Float32.isinf l) eqn:F;
      [reflexivity|]. symmetry. apply nan_to_num_finite, F. }
  rewrite !List.map_map. apply List.map_ext_in. intros x Hx.
  apply scale_clip_normalize. rewrite List.Forall_forall in Ok. apply Ok, Hx.
Qed.

Lemma normalize_sample_range (l : list float32) :
  Forall mantissa_ok l ->
  Forall (fun q => - 32767 <= q <= 32767) (map Spec.normalize_sample l).
Proof.
  intros Ok. induction Ok as [|x l Hx _ IH]; simpl.
  - apply List.Forall_nil.
  - apply List.Forall_cons; [apply scale_clip_normalize, Hx | exact IH].
Qed.

(** ** The handlers *)

(** Reads the fields of a state built by the setters. *)
Ltac state_simpl :=
  cbn [model rec recognizers session_locks session_closed lock_heap engine
       calls set_rec set_recognizers set_session_locks set_session_closed
       set_lock_heap set_engine with_lock_entry] in *.

(** Splits on the innermost scrutinee of the goal, again and again. *)
Ltac case_split :=
  repeat (match goal with
          | |- context [match ?x with _ => _ end] =>
              lazymatch x with
              | context [match _ with _ => _ end] => fail
              | _ => destruct x eqn:?
              end
          end; cbn beta iota; state_simpl).

Section Handlers.

Context (E : Engine).
Context (json_loads : string -> outcome (gmap string JValue)).

Local Abbreviation handle := (recognize_audio_stream E json_loads).

Implicit Types (st : State E) (req : Request) (session_id : string).

Lemma setdefault_lock_eq session_id st :
  setdefault_lock E session_id st
  = Some (Normal (lock_of session_id st), with_lock_entry session_id st).
Proof.
  unfold setdefault_lock, bind, new_lock, gets, modify, ret, lock_of,
    with_lock_entry.
  simpl. destruct (session_locks st !! session_id); reflexivity.
Qed.

(** Past the model check, the handler prepares the session's lock and
    branches on the end-of-utterance flag. *)
Lemma handle_unfold req st :
  is_Some (model st) ->
  handle req st
  = try_except E
      (if end_of_utt_of req
       then end_of_utterance E json_loads (session_id_of req)
              (lock_of (session_id_of req) st)
       else audio_branch E json_loads (session_id_of req) (data req))
      (fun e => ret E (error_response 500 e))
      (with_lock_entry (session_id_of req) st).
Proof.
  intros Hm. unfold recognize_audio_stream, try_except, bind, gets.
  rewrite bool_decide_eq_true_2 by exact Hm. cbn beta iota delta [negb].
  rewrite setdefault_lock_eq. reflexivity.
Qed.

Lemma lock_entry_lookup session_id st :
  session_locks (with_lock_entry session_id st) !! session_id
  = Some (lock_of session_id st).
Proof.
  unfold with_lock_entry, lock_of. simpl.
  destruct (session_locks st !! session_id) eqn:L; simpl.
  - exact L.
  - apply lookup_insert_eq.
Qed.

Lemma lock_entry_free session_id st :
  lock_free session_id st ->
  lock_heap (with_lock_entry session_id st) !! lock_of session_id st = Some false.
Proof.
  intros F. unfold with_lock_entry, lock_of. simpl.
  destruct (session_locks st !! session_id) as [l|] eqn:L; simpl.
  - apply lookup_app_l_Some. apply F. exact L.
  - rewrite lookup_app_r by lia. rewrite Nat.sub_diag. reflexivity.
Qed.

Lemma lock_entry_keeps_free session_id st :
  lock_free session_id st -> lock_free session_id (with_lock_entry session_id st).
Proof.
  intros F l. rewrite lock_entry_lookup. intros [= <-].
  apply lock_entry_free, F.
Qed.

(** [with lock: m] when the lock is free: [m] runs with the lock held and
    the lock is released whatever [m] does. *)
Lemma with_lock_free {A : Type} (l : LockRef) (m : M E A) st :
  lock_heap st !! l = Some false ->
  with_lock E l m st
  = match m (set_lock_heap E (<[l := true]> (lock_heap st)) st) with
    | None => None
    | Some (r, st') => Some (r, set_lock_heap E (<[l := false]> (lock_heap st')) st')
    end.
Proof.
  intros F. unfold with_lock, bind, acquire, try_finally, release, modify.
  rewrite F. destruct (m _) as [[r st']|]; reflexivity.
Qed.

(** *** Rejected fragments *)

Lemma audio_branch_empty session_id audio_data st :
  len audio_data = 0 ->
  audio_branch E json_loads session_id audio_data st
  = Some (Normal (error_response 400 "音频数据为空"), st).
Proof. intros L. unfold audio_branch. rewrite L. reflexivity. Qed.

Lemma audio_branch_misaligned session_id audio_data st :
  len audio_data mod 4 <> 0 ->
  audio_branch E json_loads session_id audio_data st
  = Some (Normal (error_response 400
                    ("音频数据长度无效: " ++ pretty (len audio_data)
                     ++ " bytes，应为4的倍数")), st).
Proof.
  intros L. unfold audio_branch.
  destruct (len audio_data =? 0) eqn:Z0.
  - apply Z.eqb_eq in Z0. rewrite Z0 in L. exfalso. apply L. reflexivity.
  - rewrite (proj2 (Z.eqb_neq _ _) L). reflexivity.
Qed.

Lemma released_heap (heap : list bool) (l : LockRef) :
  heap !! l = Some false -> <[l := false]> (<[l := true]> heap) = heap.
Proof.
  intros F. rewrite list_insert_insert_eq. apply list_insert_id, F.
Qed.

Lemma convert_float32_inv (audio_data : list byte) (int16_data : list Z) :
  convert_float32 audio_data = Normal (Some int16_data) ->
  len audio_data <> 0 /\ len audio_data mod 4 = 0.
Proof.
  unfold convert_float32, frombuffer_float32.
  destruct (len audio_data mod 4 =? 0) eqn:A; [|discriminate].
  apply Z.eqb_eq in A. intros H. split; [|exact A].
  intros Z0. destruct audio_data; [discriminate H|discriminate Z0].
Qed.

(** The audio branch on a fragment that converts. *)
Lemma audio_branch_valid session_id audio_data int16_data st :
  convert_float32 audio_data = Normal (Some int16_data) ->
  audio_branch E json_loads session_id audio_data st
  = try_except E
      (bind E (lift E (prepare_pcm int16_data))
         (fun p => match p with
                   | TooShort => ret E (text_response (JStr EmptyString) "partial")
                   | Pcm audio_bytes _ =>
                       feed_session E json_loads session_id audio_bytes
                   end))
      (fun vosk_error =>
         ret E (error_response 500 ("Vosk处理失败: " ++ vosk_error))) st.
Proof.
  intros C. destruct (convert_float32_inv _ _ C) as [N A].
  unfold audio_branch.
  rewrite (proj2 (Z.eqb_neq _ _) N), (proj2 (Z.eqb_eq _ _) A), C. reflexivity.
Qed.

(** *** A fragment for a session marked closed *)

Lemma feed_session_closed session_id audio_bytes st :
  session_id ∈ session_closed st ->
  lock_free session_id st ->
  exists st',
    feed_session E json_loads session_id audio_bytes st
    = Some (Normal (text_response (JStr EmptyString) "partial"), st') /\
    calls st' = calls st /\ engine st' = engine st /\
    recognizers st' = recognizers st /\
    session_closed st' = session_closed st.
Proof.
  intros C F. unfold feed_session. unfold bind at 1.
  rewrite setdefault_lock_eq.
  rewrite with_lock_free by (apply lock_entry_free, F).
  unfold bind, gets. cbn beta iota.
  rewrite decide_True by exact C.
  eexists. split; [reflexivity|]. repeat split; reflexivity.
Qed.

(** *** The end-of-utterance request *)

Lemma end_request_run req st :
  is_Some (model st) ->
  end_of_utt_of req = true ->
  lock_free (session_id_of req) st ->
  exists resp st',
    handle req st = Some (Normal resp, st') /\
    model st' = model st /\
    lock_heap st' = lock_heap st ++ [false] /\
    recognizers st' = delete (session_id_of req) (recognizers st) /\
    session_locks st' = delete (session_id_of req) (session_locks st) /\
    session_closed st'
    = ({[session_id_of req]} ∪ session_closed st) ∖ {[session_id_of req]} /\
    (recognizers st !! session_id_of req = None ->
     resp = text_response (JStr EmptyString) "final" /\
     calls st' = calls st /\ engine st' = engine st).
Proof.
  intros Hm Heou F. rewrite handle_unfold by exact Hm. rewrite Heou.
  set (sid := session_id_of req) in *.
  assert (delete sid (session_locks (with_lock_entry sid st))
          = delete sid (session_locks st)) as DL.
  { unfold with_lock_entry. cbn [session_locks].
    destruct (session_locks st !! sid); [reflexivity|apply delete_insert_eq]. }
  pose proof (released_heap _ _ (lock_entry_free sid st F)) as RH.
  unfold try_except, end_of_utterance.
  rewrite with_lock_free by (apply lock_entry_free, F).
  unfold bind, gets, modify, try_finally, final_result_of, engine_call, lift, ret.
  cbn beta iota. state_simpl.
  destruct (recognizers st !! sid) as [h|] eqn:R; cbn beta iota; state_simpl.
  - destruct (FinalResult E h (engine st)) as [[result_str|e] es] eqn:FR.
    + destruct (String.eqb result_str EmptyString).
      * eexists _, _. split; [reflexivity|]. state_simpl. rewrite DL, RH.
        repeat split; discriminate.
      * destruct (json_loads result_str) as [result|e];
          (eexists _, _; split; [reflexivity|]); state_simpl; rewrite DL, RH;
          repeat split; discriminate.
    + eexists _, _. split; [reflexivity|]. state_simpl. rewrite DL, RH.
      repeat split; discriminate.
  - eexists _, _. split; [reflexivity|]. state_simpl. rewrite DL, RH.
    repeat split; reflexivity.
Qed.

(** *** A fragment whose [AcceptWaveform] raises *)

Lemma lock_of_entry session_id st :
  lock_of session_id (with_lock_entry session_id st) = lock_of session_id st.
Proof.
  unfold lock_of at 1. rewrite lock_entry_lookup. reflexivity.
Qed.

Lemma feed_session_accept_raises session_id audio_bytes st h es e es' :
  session_id ∉ session_closed st ->
  lock_free session_id st ->
  (recognizers st !! session_id = Some h /\ es = engine st) \/
  (recognizers st !! session_id = None /\
   KaldiRecognizer E (model st) 16000 (engine st) = (Normal h, es)) ->
  AcceptWaveform E h audio_bytes es = (Raised e, es') ->
  exists st',
    feed_session E json_loads session_id audio_bytes st = Some (Raised e, st') /\
    recognizers st' !! session_id = Some h /\
    session_locks st' !! session_id = Some (lock_of session_id st) /\
    lock_heap st' = lock_heap st ++ [false].
Proof.
  intros C F Hh Ha. unfold feed_session. unfold bind at 1.
  rewrite setdefault_lock_eq.
  rewrite with_lock_free by (apply lock_entry_free, F).
  pose proof (lock_entry_lookup session_id st) as LL.
  pose proof (released_heap _ _ (lock_entry_free session_id st F)) as RH.
  unfold bind at 1. unfold gets at 1. cbn beta iota. state_simpl.
  rewrite decide_False by exact C.
  unfold recognizer_for, recognize, accept_waveform, new_recognizer,
    try_except, bind, gets, modify, engine_call, ret.
  cbn beta iota. state_simpl.
  destruct Hh as [[R ->]|[R K]]; rewrite R; cbn beta iota; state_simpl.
  - rewrite Ha. cbn beta iota. state_simpl.
    eexists. split; [reflexivity|]. state_simpl. rewrite RH.
    repeat split; assumption.
  - rewrite K. cbn beta iota. state_simpl. rewrite Ha. cbn beta iota.
    eexists. split; [reflexivity|]. state_simpl. rewrite RH.
    repeat split; [apply lookup_insert_eq | assumption].
Qed.

(** *** The claims about [recognize_audio_stream] *)

(** The check of lines 265-271 taken alone: were a fragment that
    normalises without a fault handled while its session id is in
    [session_closed], it would be answered with the empty partial result
    without an engine call.  No state between two requests has such a
    marker, see [reachable_quiescent]. *)
Lemma marked_fragment_discarded req st int16_data p :
  is_Some (model st) ->
  end_of_utt_of req = false ->
  session_id_of req ∈ session_closed st ->
  lock_free (session_id_of req) st ->
  convert_float32 (data req) = Normal (Some int16_data) ->
  prepare_pcm int16_data = Normal p ->
  exists st',
    handle req st = Some (Normal (text_response (JStr EmptyString) "partial"), st') /\
    calls st' = calls st /\ engine st' = engine st /\
    recognizers st' = recognizers st /\
    session_closed st' = session_closed st.
Proof.
  intros Hm Heou C F Hc Hp.
  rewrite handle_unfold by exact Hm. rewrite Heou.
  unfold try_except. rewrite (audio_branch_valid _ _ _ _ Hc).
  unfold try_except, bind, lift. rewrite Hp. destruct p as [|audio_bytes padded].
  - eexists. split; [reflexivity|]. repeat split; reflexivity.
  - destruct (feed_session_closed (session_id_of req) audio_bytes
                (with_lock_entry (session_id_of req) st))
      as (st' & -> & Hcalls & Hengine & Hrec & Hclosed).
    + exact C.
    + apply lock_entry_keeps_free, F.
    + exists st'. split; [reflexivity|].
      rewrite Hcalls, Hengine, Hrec, Hclosed. repeat split; reflexivity.
Qed.

(** C2, as amended.  A request rejected by validation leaves the
    recognizer map and the closed markers as they were; in the lock map
    only the entry of the request's session id can change: it is created
    when the id had none. *)
Theorem rejected_fragment_registry req st :
  is_Some (model st) ->
  end_of_utt_of req = false ->
  (len (data req) = 0 \/ len (data req) mod 4 <> 0) ->
  exists resp st',
    handle req st = Some (Normal resp, st') /\
    status resp = 400 /\
    recognizers st' = recognizers st /\
    session_closed st' = session_closed st /\
    session_locks st'
    = match session_locks st !! session_id_of req with
      | Some _ => session_locks st
      | None => <[session_id_of req := length (lock_heap st)]> (session_locks st)
      end.
Proof.
  intros Hm Heou Bad.
  rewrite handle_unfold by exact Hm. rewrite Heou. unfold try_except.
  destruct Bad as [Z0|Mis].
  - rewrite audio_branch_empty by exact Z0.
    eexists _, _. split; [reflexivity|]. repeat split; reflexivity.
  - rewrite audio_branch_misaligned by exact Mis.
    eexists _, _. split; [reflexivity|]. repeat split; reflexivity.
Qed.

(** C4.  A second end-of-utterance request right after a first one for the
    same session id finds no handle, makes no engine call, answers with the
    empty final result and leaves the registry without any entry for the
    id, as the first request left it. *)
Theorem close_twice req1 req2 st :
  is_Some (model st) ->
  end_of_utt_of req1 = true ->
  end_of_utt_of req2 = true ->
  session_id_of req2 = session_id_of req1 ->
  lock_free (session_id_of req1) st ->
  exists resp1 st1 st2,
    handle req1 st = Some (Normal resp1, st1) /\
    recognizers st1 !! session_id_of req1 = None /\
    handle req2 st1 = Some (Normal (text_response (JStr EmptyString) "final"), st2) /\
    calls st2 = calls st1 /\
    recognizers st2 !! session_id_of req1 = None /\
    session_locks st2 !! session_id_of req1 = None /\
    (session_id_of req1 ∉ session_closed st2) /\
    recognizers st2 = recognizers st1 /\
    session_locks st2 = session_locks st1 /\
    session_closed st2 = session_closed st1.
Proof.
  intros Hm E1 E2 Same F.
  destruct (end_request_run req1 st Hm E1 F)
    as (resp1 & st1 & H1 & M1 & _ & R1 & L1 & C1 & _).
  assert (recognizers st1 !! session_id_of req1 = None) as N1
    by (rewrite R1; apply lookup_delete_eq).
  assert (lock_free (session_id_of req2) st1) as F1.
  { intros l. rewrite Same, L1, lookup_delete_eq. discriminate. }
  assert (is_Some (model st1)) as Hm1 by (rewrite M1; exact Hm).
  destruct (end_request_run req2 st1 Hm1 E2 F1)
    as (resp2 & st2 & H2 & M2 & _ & R2 & L2 & C2 & Absent).
  rewrite Same in *. destruct (Absent N1) as (-> & Calls & _).
  exists resp1, st1, st2.
  rewrite R2, L2, C2, R1, L1, C1, !delete_delete_eq, !lookup_delete_eq.
  repeat split; try assumption; try reflexivity.
  - apply not_elem_of_difference. right. apply elem_of_singleton. reflexivity.
  - apply set_eq. intros x.
    rewrite !elem_of_difference, !elem_of_union, !elem_of_difference,
      !elem_of_union. tauto.
Qed.

(** C5.  Without the end-of-utterance flag, an empty body and a body whose
    length is not a multiple of 4 are each answered with status 400 and an
    error body; the engine is not called. *)
Theorem invalid_fragment_rejected req st :
  is_Some (model st) ->
  end_of_utt_of req = false ->
  (len (data req) = 0 ->
   exists st',
     handle req st = Some (Normal (error_response 400 "音频数据为空"), st') /\
     calls st' = calls st /\ engine st' = engine st) /\
  (len (data req) mod 4 <> 0 ->
   exists st',
     handle req st
     = Some (Normal (error_response 400
                       ("音频数据长度无效: " ++ pretty (len (data req))
                        ++ " bytes，应为4的倍数")), st') /\
     calls st' = calls st /\ engine st' = engine st).
Proof.
  intros Hm Heou.
  rewrite handle_unfold by exact Hm. rewrite Heou. unfold try_except.
  split; intros Bad.
  - rewrite audio_branch_empty by exact Bad.
    eexists. split; [reflexivity|]. split; reflexivity.
  - rewrite audio_branch_misaligned by exact Bad.
    eexists. split; [reflexivity|]. split; reflexivity.
Qed.

(** C8.  When [AcceptWaveform] raises on the normalised fragment, the
    answer is status 500 with the exception text, the session's lock is
    registered and not held, and the session's handle, found or just
    created, stays in [recognizers]. *)
Theorem accept_failure_keeps_session
    req st int16_data audio_bytes padded h es e es' :
  is_Some (model st) ->
  end_of_utt_of req = false ->
  session_id_of req ∉ session_closed st ->
  lock_free (session_id_of req) st ->
  convert_float32 (data req) = Normal (Some int16_data) ->
  prepare_pcm int16_data = Normal (Pcm audio_bytes padded) ->
  (recognizers st !! session_id_of req = Some h /\ es = engine st) \/
  (recognizers st !! session_id_of req = None /\
   KaldiRecognizer E (model st) 16000 (engine st) = (Normal h, es)) ->
  AcceptWaveform E h audio_bytes es = (Raised e, es') ->
  exists st' lock,
    handle req st
    = Some (Normal (error_response 500 ("Vosk处理失败: " ++ e)), st') /\
    recognizers st' !! session_id_of req = Some h /\
    session_locks st' !! session_id_of req = Some lock /\
    lock_heap st' !! lock = Some false /\
    (forall l, lock_heap st !! l = Some false -> lock_heap st' !! l = Some false).
Proof.
  intros Hm Heou C F Hc Hp Hh Ha.
  rewrite handle_unfold by exact Hm. rewrite Heou.
  unfold try_except. rewrite (audio_branch_valid _ _ _ _ Hc).
  unfold try_except, bind, lift. rewrite Hp.
  set (sid := session_id_of req) in *.
  destruct (feed_session_accept_raises sid audio_bytes
              (with_lock_entry sid st) h es e es')
    as (st' & -> & Hrec & Hlock & Hheap); try assumption.
  - apply lock_entry_keeps_free, F.
  - exists st', (lock_of sid st). split; [reflexivity|].
    rewrite lock_of_entry in Hlock.
    split; [exact Hrec|]. split; [exact Hlock|].
    rewrite Hheap. split.
    + apply lookup_app_l_Some, lock_entry_free, F.
    + intros l Hl. do 2 apply lookup_app_l_Some. exact Hl.
Qed.

(** *** What a request hands to the engine *)

Lemma feed_session_calls session_id audio_bytes st r st' :
  feed_session E json_loads session_id audio_bytes st = Some (r, st') ->
  exists new_calls,
    calls st' = calls st ++ new_calls /\
    forall h audio, In (CallAcceptWaveform h audio) new_calls -> audio = audio_bytes.
Proof.
  unfold feed_session. unfold bind at 1. rewrite setdefault_lock_eq.
  unfold with_lock, acquire, try_finally, release, recognizer_for, recognize,
    accept_waveform, result_of, partial_result_of, new_recognizer,
    try_except, engine_call, bind, gets, modify, lift, ret.
  cbn beta iota. state_simpl.
  case_split;
    intros H; inversion H; subst; clear H; state_simpl;
    rewrite <- ?app_assoc;
    (eexists; split; [first [reflexivity | symmetry; apply app_nil_r]|]);
    intros h0 audio0 Hin; simpl in Hin; intuition congruence.
Qed.

Lemma handle_calls req st r st' :
  handle req st = Some (r, st') ->
  exists new_calls,
    calls st' = calls st ++ new_calls /\
    forall h audio,
      In (CallAcceptWaveform h audio) new_calls ->
      exists int16_data padded,
        prepare_pcm int16_data = Normal (Pcm audio padded).
Proof.
  unfold recognize_audio_stream. unfold bind at 1. unfold gets at 1.
  cbn beta iota.
  destruct (negb (bool_decide (is_Some (model st)))).
  { intros [= <- <-]. exists []. split; [symmetry; apply app_nil_r|].
    intros ? ? []. }
  unfold try_except at 1. unfold bind at 1. rewrite setdefault_lock_eq.
  destruct (end_of_utt_of req).
  - unfold end_of_utterance, with_lock, acquire, try_finally, release,
      final_result_of, engine_call, bind, gets, modify, lift, ret.
    cbn beta iota. state_simpl.
    case_split;
      intros H; inversion H; subst; clear H; state_simpl;
      rewrite <- ?app_assoc;
      (eexists; split; [first [reflexivity | symmetry; apply app_nil_r]|]);
      intros h0 audio0 Hin; simpl in Hin; intuition congruence.
  - unfold audio_branch.
    assert (forall resp,
               Some (Normal resp, with_lock_entry (session_id_of req) st)
               = Some (r, st') ->
               exists new_calls,
                 calls st' = calls st ++ new_calls /\
                 forall h audio,
                   In (CallAcceptWaveform h audio) new_calls ->
                   exists int16_data padded,
                     prepare_pcm int16_data = Normal (Pcm audio padded))
      as Quiet.
    { intros resp [= <- <-]. exists []. split; [symmetry; apply app_nil_r|].
      intros ? ? []. }
    destruct (len (data req) =? 0); [apply Quiet|].
    destruct (negb (len (data req) mod 4 =? 0)); [apply Quiet|].
    destruct (convert_float32 (data req)) as [[int16_data|]|e];
      [|apply Quiet..].
    unfold try_except, bind, lift, ret.
    destruct (prepare_pcm int16_data) as [[|audio_bytes padded]|e] eqn:P;
      [apply Quiet| |apply Quiet].
    destruct (feed_session E json_loads (session_id_of req) audio_bytes
                (with_lock_entry (session_id_of req) st))
      as [[r1 st1]|] eqn:Feed; [|discriminate].
    apply feed_session_calls in Feed as (new_calls & Hcalls & Hin).
    state_simpl.
    intros Hr. exists new_calls. split.
    + destruct r1; inversion Hr; subst; exact Hcalls.
    + intros h audio Hi. rewrite (Hin h audio Hi). eauto.
Qed.

(** C3.  Every buffer a request hands to [AcceptWaveform] has an even
    length from 640 to 32000 bytes. *)
Theorem engine_audio_length req st r st' :
  handle req st = Some (r, st') ->
  exists new_calls,
    calls st' = calls st ++ new_calls /\
    forall h audio,
      In (CallAcceptWaveform h audio) new_calls ->
      len audio mod 2 = 0 /\ 640 <= len audio <= 32000.
Proof.
  intros H. destruct (handle_calls req st r st' H) as (new_calls & Hc & Hin).
  exists new_calls. split; [exact Hc|].
  intros h audio Hi. destruct (Hin h audio Hi) as (int16_data & padded & P).
  apply prepare_pcm_inv in P as (_ & Hn & Hl).
  rewrite Hl. split.
  - destruct (Z.min_spec (2 * len int16_data) 32000) as [[_ ->]|[_ ->]];
      [rewrite Z.mul_comm; apply Z_mod_mult | reflexivity].
  - lia.
Qed.

(** C9.  [/reset] leaves the session registry alone: the recognizer map,
    the lock map, the lock objects and the closed markers are unchanged,
    and [rec] is the new handle when the engine delivers one. *)
Theorem reset_leaves_sessions st :
  exists resp st',
    reset_recognizer E st = Some (Normal resp, st') /\
    recognizers st' = recognizers st /\
    session_locks st' = session_locks st /\
    session_closed st' = session_closed st /\
    lock_heap st' = lock_heap st /\
    match model st, KaldiRecognizer E (model st) 16000 (engine st) with
    | Some _, (Normal h, _) => rec st' = Some h /\ status resp = 200
    | _, _ => rec st' = rec st /\ status resp = 500
    end.
Proof.
  unfold reset_recognizer, try_except, new_recognizer, engine_call, bind,
    gets, modify, ret.
  cbn beta iota.
  destruct (model st) as [m|] eqn:Hm.
  - rewrite bool_decide_eq_true_2 by eauto. cbn beta iota delta [negb].
    rewrite Hm.
    destruct (KaldiRecognizer E (Some m) 16000 (engine st)) as [[h|e] es];
      (eexists _, _; split; [reflexivity|]); repeat split; reflexivity.
  - rewrite bool_decide_eq_false_2 by (intros [? ?]; discriminate).
    cbn beta iota delta [negb].
    eexists _, _. split; [reflexivity|]. repeat split; reflexivity.
Qed.

(** *** Sequential runs *)

Lemma quiescent_lock_free st session_id :
  quiescent st -> lock_free session_id st.
Proof.
  intros (_ & _ & Free & Wf) l Hl. specialize (Wf _ _ Hl).
  destruct (lookup_lt_is_Some_2 (lock_heap st) l Wf) as [b Hb].
  etransitivity; [exact Hb|]. f_equal. symmetry.
  rewrite List.Forall_forall in Free. apply Free.
  apply list_elem_of_In. eapply list_elem_of_lookup_2. exact Hb.
Qed.

(** A fragment that reaches the registry always gets an answer or an
    exception; the lock taken is given back. *)
Lemma feed_session_run session_id audio_bytes st :
  lock_free session_id st ->
  exists r st',
    feed_session E json_loads session_id audio_bytes st = Some (r, st') /\
    model st' = model st /\
    session_closed st' = session_closed st /\
    session_locks st' = session_locks (with_lock_entry session_id st) /\
    lock_heap st' = lock_heap st ++ [false].
Proof.
  intros F. unfold feed_session. unfold bind at 1. rewrite setdefault_lock_eq.
  rewrite with_lock_free by (apply lock_entry_free, F).
  pose proof (released_heap _ _ (lock_entry_free session_id st F)) as RH.
  set (st1 := with_lock_entry session_id st) in *.
  assert (model st1 = model st) as M1 by reflexivity.
  assert (session_closed st1 = session_closed st) as C1 by reflexivity.
  assert (lock_heap st1 = lock_heap st ++ [false]) as H1 by reflexivity.
  clearbody st1.
  unfold recognizer_for, recognize, accept_waveform, result_of,
    partial_result_of, new_recognizer, try_except, engine_call, bind, gets,
    modify, lift, ret.
  cbn beta iota. state_simpl.
  case_split; (eexists _, _; split; [reflexivity|]); state_simpl;
    rewrite RH, M1, C1, H1; repeat split; reflexivity.
Qed.

Lemma frame_refl st : frame st st.
Proof.
  split; [reflexivity|]. split; [auto|]. split; [auto|].
  exists 0%nat. symmetry. apply app_nil_r.
Qed.

Lemma frame_entry session_id st : frame st (with_lock_entry session_id st).
Proof.
  split; [reflexivity|]. split; [auto|]. split.
  - intros sid' l. unfold with_lock_entry. cbn [session_locks lock_heap].
    destruct (session_locks st !! session_id) eqn:L; [auto|].
    destruct (decide (session_id = sid')) as [->|Ne].
    + rewrite lookup_insert_eq. intros [= <-]. right.
      rewrite length_app. simpl. lia.
    + rewrite lookup_insert_ne by exact Ne. auto.
  - exists 1%nat. reflexivity.
Qed.

Lemma frame_trans st1 st2 st3 : frame st1 st2 -> frame st2 st3 -> frame st1 st3.
Proof.
  intros (M1 & C1 & L1 & k1 & H1) (M2 & C2 & L2 & k2 & H2).
  split; [congruence|]. split; [auto|]. split.
  - intros sid' l Hl. destruct (L2 _ _ Hl) as [Hl2|Hl2]; [|auto].
    destruct (L1 _ _ Hl2) as [Hl1|Hl1]; [auto|]. right.
    rewrite H2, length_app. lia.
  - exists (k1 + k2)%nat. rewrite H2, H1, <- app_assoc, repeat_app. reflexivity.
Qed.

Lemma frame_quiescent st st' : quiescent st -> frame st st' -> quiescent st'.
Proof.
  intros (Hm & Hc & Free & Wf) (M & C & L & k & H).
  split; [rewrite M; exact Hm|]. split.
  - apply set_eq. intros x. split; [|intros []%elem_of_empty].
    intros Hx. rewrite <- Hc. apply C, Hx.
  - split.
    + rewrite H. apply List.Forall_app. split; [exact Free|].
      apply List.Forall_forall. intros b Hb. apply repeat_spec in Hb.
      symmetry. exact Hb.
    + intros sid' l Hl. destruct (L _ _ Hl) as [Hl'|Hl']; [|exact Hl'].
      specialize (Wf _ _ Hl'). rewrite H, length_app. lia.
Qed.

(** Every request made when the model is loaded and the session's lock is
    free gets a response, raising nothing and waiting for nothing. *)
Lemma handle_run req st :
  is_Some (model st) ->
  lock_free (session_id_of req) st ->
  exists resp st', handle req st = Some (Normal resp, st') /\ frame st st'.
Proof.
  intros Hm F. destruct (end_of_utt_of req) eqn:Eou.
  - destruct (end_request_run req st Hm Eou F)
      as (resp & st' & H & M & Heap & _ & L & C & _).
    exists resp, st'. split; [exact H|].
    split; [exact M|]. split.
    + intros x. rewrite C, elem_of_difference, elem_of_union, elem_of_singleton.
      tauto.
    + split.
      * intros sid' l. rewrite L. intros Hl.
        apply lookup_delete_Some in Hl as [_ Hl]. auto.
      * exists 1%nat. exact Heap.
  - rewrite handle_unfold by exact Hm. rewrite Eou.
    set (sid := session_id_of req) in *.
    pose proof (frame_entry sid st) as Fe.
    unfold try_except, audio_branch.
    destruct (len (data req) =? 0); [eexists _, _; split; [reflexivity|exact Fe]|].
    destruct (negb (len (data req) mod 4 =? 0));
      [eexists _, _; split; [reflexivity|exact Fe]|].
    destruct (convert_float32 (data req)) as [[int16_data|]|e];
      [|eexists _, _; split; [reflexivity|exact Fe]..].
    unfold try_except, bind, lift, ret.
    destruct (prepare_pcm int16_data) as [[|audio_bytes padded]|e];
      [eexists _, _; split; [reflexivity|exact Fe]|
      |eexists _, _; split; [reflexivity|exact Fe]].
    destruct (feed_session_run sid audio_bytes (with_lock_entry sid st))
      as (r & st' & -> & M & C & L & Heap);
      [apply lock_entry_keeps_free, F|].
    assert (frame (with_lock_entry sid st) st') as F2.
    { split; [exact M|]. split; [intros x; rewrite C; auto|]. split.
      - intros sid' l Hl. rewrite L in Hl. rewrite Heap.
        exact (proj1 (proj2 (proj2 (frame_entry sid _))) sid' l Hl).
      - exists 1%nat. exact Heap. }
    destruct r as [resp|e]; eexists _, _; (split; [reflexivity|]);
      exact (frame_trans _ _ _ Fe F2).
Qed.

Lemma reset_run st :
  exists resp st', reset_recognizer E st = Some (Normal resp, st') /\ frame st st'.
Proof.
  unfold reset_recognizer, try_except, new_recognizer, engine_call, bind,
    gets, modify, ret.
  cbn beta iota.
  destruct (negb (bool_decide (is_Some (model st))));
    [eexists _, _; split; [reflexivity|apply frame_refl]|].
  destruct (KaldiRecognizer E (model st) 16000 (engine st)) as [[h|e] es];
    (eexists _, _; split; [reflexivity|]);
    (split; [reflexivity|]); (split; [auto|]); (split; [auto|]);
    exists 0%nat; symmetry; apply app_nil_r.
Qed.

(** In a sequential run every state between two requests is quiescent: in
    particular no session is ever found marked closed, and no request waits
    for a lock. *)
Theorem reachable_quiescent st : reachable json_loads st -> quiescent st.
Proof.
  induction 1 as [h e|st st' req r _ IH Hrun|st st' r _ IH Hrun].
  - split; [eexists; reflexivity|]. split; [reflexivity|].
    split; [apply List.Forall_nil|]. intros sid l Hl.
    cbn [session_locks] in Hl. rewrite lookup_empty in Hl. discriminate.
  - destruct (handle_run req st (proj1 IH) (quiescent_lock_free _ _ IH))
      as (resp & st'' & Hrun' & Fr).
    rewrite Hrun in Hrun'. injection Hrun' as -> ->.
    exact (frame_quiescent _ _ IH Fr).
  - destruct (reset_run st) as (resp & st'' & Hrun' & Fr).
    rewrite Hrun in Hrun'. injection Hrun' as -> ->.
    exact (frame_quiescent _ _ IH Fr).
Qed.

Corollary reachable_answered st req :
  reachable json_loads st ->
  exists resp st',
    handle req st = Some (Normal resp, st') /\ reachable json_loads st'.
Proof.
  intros R. pose proof (reachable_quiescent st R) as Q.
  destruct (handle_run req st (proj1 Q) (quiescent_lock_free _ _ Q))
    as (resp & st' & Hrun & _).
  exists resp, st'. split; [exact Hrun|].
  exact (reach_stream json_loads st st' req _ R Hrun).
Qed.

End Handlers.

(** ** The claims about the normaliser *)

(** C6.  On a valid fragment the conversion maps every sample as the
    specification words it: NaN to 0.0, the infinities to 1.0 and -1.0, the
    clamp to the interval from -1.0 to 1.0, then the product with 32767 cut
    to its integer part, which fits a signed 16-bit integer. *)
Theorem sample_conversion (audio_data : list byte) :
  len audio_data <> 0 ->
  len audio_data mod 4 = 0 ->
  convert_float32 audio_data
  = Normal (Some (map Spec.normalize_sample (float32_items audio_data))) /\
  Forall (fun q => - 32767 <= q <= 32767)
    (map Spec.normalize_sample (float32_items audio_data)).
Proof.
  intros N A. split.
  - apply convert_float32_valid; assumption.
  - apply normalize_sample_range, float32_items_mantissa.
Qed.

Lemma sample_conversion_witness :
  convert_float32 (f32_bytes_nan ++ f32_bytes_pinf ++ f32_bytes_ninf
                   ++ f32_bytes_three ++ f32_bytes_half)
  = Normal (Some (map Spec.normalize_sample
                    (float32_items (f32_bytes_nan ++ f32_bytes_pinf
                                    ++ f32_bytes_ninf ++ f32_bytes_three
                                    ++ f32_bytes_half)))) /\
  Forall (fun q => - 32767 <= q <= 32767)
    (map Spec.normalize_sample
       (float32_items (f32_bytes_nan ++ f32_bytes_pinf ++ f32_bytes_ninf
                       ++ f32_bytes_three ++ f32_bytes_half))).
Proof.
  apply sample_conversion.
  - vm_compute. discriminate.
  - reflexivity.
Defined.

(** C10.  A fragment that passes the short-circuit has at least 320
    samples, more than [min_samples]; its stage either aborts in the declick
    pass or returns the bytes of the quantised samples cut at [max_bytes],
    without taking the padding branch. *)
Theorem padding_unreachable (int16_data : list Z) :
  640 <= len (tobytes (mk_ndarray int16_data true)) ->
  min_samples < 320 <= len int16_data /\
  (prepare_pcm int16_data = Raised "assignment destination is read-only" \/
   prepare_pcm int16_data
   = Normal (Pcm (take (Z.to_nat max_bytes)
                    (tobytes (mk_ndarray int16_data true))) false)).
Proof.
  intros Long. split.
  - pose proof (len_tobytes (mk_ndarray int16_data true)) as L0.
    simpl items in L0. unfold min_samples. lia.
  - rewrite prepare_pcm_long by exact Long.
    destruct (20000 <? _); [left|right]; reflexivity.
Qed.

Lemma padding_unreachable_witness :
  min_samples < 320 <= len (repeat 0 320) /\
  (prepare_pcm (repeat 0 320) = Raised "assignment destination is read-only" \/
   prepare_pcm (repeat 0 320)
   = Normal (Pcm (take (Z.to_nat max_bytes)
                    (tobytes (mk_ndarray (repeat 0 320) true))) false)).
Proof.
  apply padding_unreachable. vm_compute. discriminate.
Defined.

(** ** The claims on concrete requests *)

(** C7.  A fragment of 319 silent samples and one full-scale sample: the
    declick pass finds the jump, its first write is refused, and the request
    ends with status 500 without a call to the engine. *)
Theorem click_fragment_server_error :
  convert_float32 click = Normal (Some (repeat 0 319 ++ [32767])) /\
  Spec.declick (repeat 0 319 ++ [32767]) = repeat 0 320 /\
  prepare_pcm (repeat 0 319 ++ [32767])
  = Raised "assignment destination is read-only" /\
  exists st',
    recognize_audio_stream (double_engine false) double_loads
      (fragment_request "s" click) (loaded_state false)
    = Some (Normal (error_response 500
                      "Vosk处理失败: assignment destination is read-only"), st') /\
    calls st' = [].
Proof.
  split; [vm_compute; reflexivity|].
  split; [vm_compute; reflexivity|].
  split; [vm_compute; reflexivity|].
  eexists. split; vm_compute; reflexivity.
Qed.

Lemma loaded_model (b : bool) : is_Some (model (loaded_state b)).
Proof. eexists. reflexivity. Qed.

Lemma no_lock_free {E : Engine} (session_id : string) (st : State E) :
  session_locks st !! session_id = None -> lock_free session_id st.
Proof. intros N l H. rewrite N in H. discriminate. Qed.

Lemma rejected_fragment_registry_witness :
  exists resp st',
    recognize_audio_stream (double_engine false) double_loads
      (fragment_request "s" []) (loaded_state false)
    = Some (Normal resp, st') /\
    status resp = 400 /\
    recognizers st' = recognizers (loaded_state false) /\
    session_closed st' = session_closed (loaded_state false) /\
    session_locks st'
    = match session_locks (loaded_state false)
            !! session_id_of (fragment_request "s" []) with
      | Some _ => session_locks (loaded_state false)
      | None =>
          <[session_id_of (fragment_request "s" [])
            := length (lock_heap (loaded_state false))]>
            (session_locks (loaded_state false))
      end.
Proof.
  apply (rejected_fragment_registry (double_engine false) double_loads
           (fragment_request "s" []) (loaded_state false)).
  - apply loaded_model.
  - reflexivity.
  - left. reflexivity.
Defined.

(** C2 as stated fails: the empty body of a session not seen before is
    rejected with status 400, and the lock map has gained the lock that line
    146 prepared for the session. *)
Lemma rejected_fragment_adds_lock :
  exists resp st',
    recognize_audio_stream (double_engine false) double_loads
      (fragment_request "s" []) (loaded_state false)
    = Some (Normal resp, st') /\
    status resp = 400 /\
    session_locks (loaded_state false) !! "s" = None /\
    session_locks st' !! "s" = Some 0%nat /\
    session_locks st' <> session_locks (loaded_state false).
Proof.
  eexists _, _. split; [vm_compute; reflexivity|].
  split; [reflexivity|]. split; [reflexivity|]. split; [reflexivity|].
  intros Heq. apply (f_equal (fun m => m !! "s")) in Heq.
  vm_compute in Heq. discriminate.
Qed.

Lemma engine_audio_length_witness :
  exists r st',
    recognize_audio_stream (double_engine false) double_loads
      (fragment_request "s" silence) (loaded_state false) = Some (r, st') /\
    exists new_calls,
      calls st' = calls (loaded_state false) ++ new_calls /\
      forall h audio,
        In (CallAcceptWaveform h audio) new_calls ->
        len audio mod 2 = 0 /\ 640 <= len audio <= 32000.
Proof.
  destruct (recognize_audio_stream (double_engine false) double_loads
              (fragment_request "s" silence) (loaded_state false))
    as [[r st']|] eqn:H; [|vm_compute in H; discriminate].
  exists r, st'. split; [reflexivity|].
  exact (engine_audio_length _ _ _ _ _ _ H).
Defined.

(** The buffer the silent fragment hands to the engine. *)
Example silence_reaches_engine :
  exists r st',
    recognize_audio_stream (double_engine false) double_loads
      (fragment_request "s" silence) (loaded_state false) = Some (r, st') /\
    calls st' = [CallKaldiRecognizer;
                 CallAcceptWaveform 1%nat (repeat x00 640);
                 CallPartialResult 1%nat].
Proof. eexists _, _. split; vm_compute; reflexivity. Qed.

Lemma active_lock_free : lock_free "s" active_state.
Proof.
  intros l H. change (session_locks active_state) with
    ({["s" := 0%nat]} : gmap string LockRef) in H.
  rewrite lookup_singleton_eq in H. injection H as <-. reflexivity.
Qed.

Lemma close_twice_witness :
  exists resp1 st1 st2,
    recognize_audio_stream (double_engine false) double_loads
      (end_request "s") active_state = Some (Normal resp1, st1) /\
    recognizers st1 !! session_id_of (end_request "s") = None /\
    recognize_audio_stream (double_engine false) double_loads
      (end_request "s") st1
    = Some (Normal (text_response (JStr EmptyString) "final"), st2) /\
    calls st2 = calls st1 /\
    recognizers st2 !! session_id_of (end_request "s") = None /\
    session_locks st2 !! session_id_of (end_request "s") = None /\
    (session_id_of (end_request "s") ∉ session_closed st2) /\
    recognizers st2 = recognizers st1 /\
    session_locks st2 = session_locks st1 /\
    session_closed st2 = session_closed st1.
Proof.
  apply (close_twice (double_engine false) double_loads
           (end_request "s") (end_request "s") active_state).
  - eexists. reflexivity.
  - reflexivity.
  - reflexivity.
  - reflexivity.
  - exact active_lock_free.
Defined.

Lemma invalid_fragment_rejected_witness :
  (exists st',
     recognize_audio_stream (double_engine false) double_loads
       (fragment_request "s" []) (loaded_state false)
     = Some (Normal (error_response 400 "音频数据为空"), st') /\
     calls st' = calls (loaded_state false) /\
     engine st' = engine (loaded_state false)) /\
  (exists st',
     recognize_audio_stream (double_engine false) double_loads
       (fragment_request "s" [x00; x00; x00]) (loaded_state false)
     = Some (Normal (error_response 400
                       "音频数据长度无效: 3 bytes，应为4的倍数"), st') /\
     calls st' = calls (loaded_state false) /\
     engine st' = engine (loaded_state false)).
Proof.
  split.
  - apply (proj1 (invalid_fragment_rejected (double_engine false) double_loads
                    (fragment_request "s" []) (loaded_state false)
                    (loaded_model false) eq_refl)).
    reflexivity.
  - apply (proj2 (invalid_fragment_rejected (double_engine false) double_loads
                    (fragment_request "s" [x00; x00; x00]) (loaded_state false)
                    (loaded_model false) eq_refl)).
    vm_compute. discriminate.
Defined.

Lemma accept_failure_keeps_session_witness :
  exists st' lock,
    recognize_audio_stream (double_engine true) double_loads
      (fragment_request "s" silence) (loaded_state true)
    = Some (Normal (error_response 500 ("Vosk处理失败: " ++ "decoder failure")), st') /\
    recognizers st' !! session_id_of (fragment_request "s" silence) = Some 1%nat /\
    session_locks st' !! session_id_of (fragment_request "s" silence) = Some lock /\
    lock_heap st' !! lock = Some false /\
    (forall l, lock_heap (loaded_state true) !! l = Some false ->
               lock_heap st' !! l = Some false).
Proof.
  apply (accept_failure_keeps_session (double_engine true) double_loads
           (fragment_request "s" silence) (loaded_state true)
           (repeat 0 320) (repeat x00 640) false 1%nat 2%nat
           "decoder failure" 2%nat).
  - apply loaded_model.
  - reflexivity.
  - apply not_elem_of_empty.
  - apply no_lock_free. reflexivity.
  - vm_compute. reflexivity.
  - vm_compute. reflexivity.
  - right. split; reflexivity.
  - reflexivity.
Defined.


(** * Further properties *)

(** ** Samples and bytes *)

Lemma byte_of_Z_value (z : Z) : Z.of_N (Byte.to_N (byte_of_Z z)) = z mod 256.
Proof.
  unfold byte_of_Z.
  assert (0 <= z mod 256 < 256) as B by (apply Z.mod_pos_bound; lia).
  destruct (Byte.of_N (Z.to_N (z mod 256))) as [b|] eqn:H.
  - apply Byte.to_of_N in H. rewrite H. apply Z2N.id. lia.
  - apply Byte.of_N_None_iff in H. lia.
Qed.

Lemma int16_bytes_round_trip (v : Z) :
  in_int16 v ->
  int16_of_bytes (byte_of_Z (v mod 65536)) (byte_of_Z (Z.shiftr (v mod 65536) 8)) = v.
Proof.
  intros R. unfold in_int16 in R. unfold int16_of_bytes.
  rewrite !byte_of_Z_value.
  assert (0 <= v mod 65536 < 65536) as B by (apply Z.mod_pos_bound; lia).
  set (u := v mod 65536) in *.
  rewrite Z.shiftr_div_pow2 by lia. change (2 ^ 8) with 256.
  assert (0 <= u / 256 < 256) as Bh.
  { split; [apply Z.div_pos; lia|apply Z.div_lt_upper_bound; lia]. }
  rewrite (Z.mod_small (u / 256)) by lia.
  replace (u mod 256 + 256 * (u / 256)) with u
    by (rewrite (Z.div_mod u 256) at 1; lia).
  unfold Float32.wrap16, u. rewrite Zplus_mod_idemp_l.
  rewrite Z.mod_small by lia. lia.
Qed.

(** Reading back the bytes of an array of 16-bit samples gives the
    samples. *)
Lemma int16_items_tobytes (l : list Z) (w : bool) :
  Forall in_int16 l -> int16_items (tobytes (mk_ndarray l w)) = l.
Proof.
  unfold tobytes. simpl items. induction 1 as [|v l Hv _ IH]; [reflexivity|].
  change (int16_items (flat_map int16_to_bytes (v :: l)))
    with (int16_of_bytes (byte_of_Z (v mod 65536))
            (byte_of_Z (Z.shiftr (v mod 65536) 8))
          :: int16_items (flat_map int16_to_bytes l)).
  rewrite IH, int16_bytes_round_trip by exact Hv. reflexivity.
Qed.

Lemma int16_items_take (k : nat) (buf : list byte) :
  int16_items (take (2 * k) buf) = take k (int16_items buf).
Proof.
  revert buf. induction k as [|k IH]; intros buf; [reflexivity|].
  replace (2 * S k)%nat with (S (S (2 * k))) by lia.
  destruct buf as [|b0 [|b1 rest]]; [reflexivity|reflexivity|].
  simpl. rewrite <- IH. reflexivity.
Qed.

Lemma tobytes_take (k : nat) (l : list Z) (w : bool) :
  take (2 * k) (tobytes (mk_ndarray l w)) = tobytes (mk_ndarray (take k l) w).
Proof.
  unfold tobytes. simpl items. revert l. induction k as [|k IH]; intros l;
    [reflexivity|].
  replace (2 * S k)%nat with (S (S (2 * k))) by lia.
  destruct l as [|v l]; [reflexivity|].
  simpl. rewrite <- IH. reflexivity.
Qed.

Lemma max_bytes_samples : Z.to_nat max_bytes = (2 * Z.to_nat 16000)%nat.
Proof. unfold max_bytes. lia. Qed.

(** The declick pass reads back the first 16000 quantised samples. *)
Lemma samples_read_back (int16_data : list Z) :
  Forall in_int16 int16_data ->
  int16_items (take (Z.to_nat max_bytes) (tobytes (mk_ndarray int16_data true)))
  = take (Z.to_nat 16000) int16_data.
Proof.
  intros R. rewrite max_bytes_samples, int16_items_take, int16_items_tobytes
    by exact R. reflexivity.
Qed.

(** X1.  With at least 320 samples, all of 16 bits, the byte-level stage depends
    only on the largest step between two neighbours among the first 16000
    samples: above 20000 the declick pass aborts on its first write, otherwise
    the buffer for the engine is the little-endian rendering of these samples,
    unchanged and unpadded. *)
Theorem prepare_pcm_outcome (int16_data : list Z) :
  Forall in_int16 int16_data ->
  320 <= len int16_data ->
  prepare_pcm int16_data
  = if 20000 <? np_max (abs_diff (take (Z.to_nat 16000) int16_data))
    then Raised "assignment destination is read-only"
    else Normal (Pcm (tobytes (mk_ndarray (take (Z.to_nat 16000) int16_data) true))
                     false).
Proof.
  intros R L.
  rewrite prepare_pcm_long
    by (rewrite len_tobytes; simpl items; lia).
  rewrite samples_read_back by exact R.
  rewrite max_bytes_samples, tobytes_take. reflexivity.
Qed.

Lemma prepare_pcm_outcome_witness :
  prepare_pcm (repeat 0 319 ++ [32767; 0])
  = if 20000 <? np_max (abs_diff (take (Z.to_nat 16000) (repeat 0 319 ++ [32767; 0])))
    then Raised "assignment destination is read-only"
    else Normal (Pcm (tobytes (mk_ndarray
                        (take (Z.to_nat 16000) (repeat 0 319 ++ [32767; 0])) true))
                     false).
Proof.
  apply prepare_pcm_outcome.
  - apply List.Forall_forall. intros v Hv. apply in_app_or in Hv as [Hv|Hv].
    + apply repeat_spec in Hv. subst v. unfold in_int16. lia.
    + simpl in Hv. unfold in_int16. lia.
  - vm_compute. discriminate.
Defined.

Lemma quantised_in_int16 (audio_data : list byte) :
  Forall in_int16 (map Spec.normalize_sample (float32_items audio_data)).
Proof.
  eapply List.Forall_impl; [|apply normalize_sample_range, float32_items_mantissa].
  intros q Hq. unfold in_int16. simpl in Hq. lia.
Qed.

Lemma len_float32_items (buf : list byte) :
  len buf mod 4 = 0 -> 4 * len (float32_items buf) = len buf.
Proof.
  induction buf as [buf IH] using (induction_ltof1 _ (@length byte)).
  unfold ltof in IH. intros A.
  destruct buf as [|b0 [|b1 [|b2 [|b3 rest]]]]; try reflexivity;
    try discriminate A.
  simpl float32_items. unfold len in *. simpl length in *.
  assert (Z.of_nat (length rest) mod 4 = 0) as A'.
  { replace (Z.of_nat (S (S (S (S (length rest))))))
      with (Z.of_nat (length rest) + 1 * 4) in A by lia.
    rewrite Z.mod_add in A by lia. exact A. }
  specialize (IH rest ltac:(simpl; lia) A'). lia.
Qed.

(** ** More on [recognize_audio_stream] *)

Section Streaming.

Context (E : Engine).
Context (json_loads : string -> outcome (gmap string JValue)).

Local Abbreviation handle := (recognize_audio_stream E json_loads).

Implicit Types (st : State E) (req : Request) (session_id : string).

(** X2.  Without a model every request is answered with status 500 before
    anything is looked at: not even the session's lock is prepared. *)
Theorem stream_without_model req st :
  model st = None ->
  handle req st = Some (Normal model_not_initialised, st).
Proof.
  intros Hm. unfold recognize_audio_stream, bind, gets. rewrite Hm.
  rewrite bool_decide_eq_false_2 by (intros [? ?]; discriminate). reflexivity.
Qed.

(** X3.  The body of an end-of-utterance request is not read: two such requests
    for the same session id are served alike, whatever they carry. *)
Theorem end_request_ignores_body req1 req2 st :
  end_of_utt_of req1 = true ->
  end_of_utt_of req2 = true ->
  session_id_of req1 = session_id_of req2 ->
  handle req1 st = handle req2 st.
Proof.
  intros E1 E2 Same. unfold recognize_audio_stream. rewrite E1, E2, Same.
  reflexivity.
Qed.

(** X4.  An end-of-utterance request is always served, and whatever the engine
    does it leaves no handle, no lock entry and no closed marker for its
    session id, and no lock held. *)
Theorem end_request_removes_session req st :
  is_Some (model st) ->
  end_of_utt_of req = true ->
  lock_free (session_id_of req) st ->
  exists resp st',
    handle req st = Some (Normal resp, st') /\
    recognizers st' !! session_id_of req = None /\
    session_locks st' !! session_id_of req = None /\
    (session_id_of req ∉ session_closed st') /\
    lock_heap st' = lock_heap st ++ [false].
Proof.
  intros Hm Heou F.
  destruct (end_request_run E json_loads req st Hm Heou F)
    as (resp & st' & H & _ & Heap & R & L & C & _).
  exists resp, st'. rewrite R, L, C, !lookup_delete_eq.
  repeat split; try assumption.
  apply not_elem_of_difference. right. apply elem_of_singleton. reflexivity.
Qed.

(** X5.  Closing an active session: [FinalResult] is the only engine call, it is
    made on the session's handle, and its parsed text is the final result. *)
Theorem close_active_session req st h result_str es result :
  is_Some (model st) ->
  end_of_utt_of req = true ->
  lock_free (session_id_of req) st ->
  recognizers st !! session_id_of req = Some h ->
  FinalResult E h (engine st) = (Normal result_str, es) ->
  (if String.eqb result_str EmptyString then Normal ∅ else json_loads result_str)
  = Normal result ->
  exists st',
    handle req st
    = Some (Normal (scored_response (dict_get result "text" (JStr EmptyString))
                      (dict_get result "confidence" (JNum 0)) "final"), st') /\
    calls st' = calls st ++ [CallFinalResult h] /\
    engine st' = es /\
    recognizers st' = delete (session_id_of req) (recognizers st).
Proof.
  intros Hm Heou F R FR JL. rewrite handle_unfold by exact Hm. rewrite Heou.
  set (sid := session_id_of req) in *.
  unfold try_except, end_of_utterance.
  rewrite with_lock_free by (apply lock_entry_free, F).
  unfold bind, gets, modify, try_finally, final_result_of, engine_call, lift, ret.
  cbn beta iota. state_simpl. rewrite R. cbn beta iota. state_simpl.
  rewrite FR. cbn beta iota.
  destruct (String.eqb result_str EmptyString).
  - injection JL as <-. eexists. split; [reflexivity|]. repeat split; reflexivity.
  - rewrite JL. eexists. split; [reflexivity|]. repeat split; reflexivity.
Qed.

(** X6.  When [FinalResult] raises, the answer is status 500 with the exception
    text, and the session is removed all the same. *)
Theorem close_failure req st h e es :
  is_Some (model st) ->
  end_of_utt_of req = true ->
  lock_free (session_id_of req) st ->
  recognizers st !! session_id_of req = Some h ->
  FinalResult E h (engine st) = (Raised e, es) ->
  exists st',
    handle req st = Some (Normal (error_response 500 e), st') /\
    recognizers st' !! session_id_of req = None /\
    session_locks st' !! session_id_of req = None /\
    (session_id_of req ∉ session_closed st') /\
    lock_heap st' = lock_heap st ++ [false].
Proof.
  intros Hm Heou F R FR.
  destruct (end_request_run E json_loads req st Hm Heou F)
    as (resp & st' & H & _ & Heap & R' & L & C & _).
  exists st'. rewrite R', L, C, !lookup_delete_eq.
  split; [|repeat split; try assumption;
           apply not_elem_of_difference; right; apply elem_of_singleton;
           reflexivity].
  rewrite H. do 3 f_equal.
  revert H. rewrite handle_unfold by exact Hm. rewrite Heou.
  set (sid := session_id_of req) in *.
  unfold try_except, end_of_utterance.
  rewrite with_lock_free by (apply lock_entry_free, F).
  unfold bind, gets, modify, try_finally, final_result_of, engine_call, lift, ret.
  cbn beta iota. state_simpl. rewrite R. cbn beta iota. state_simpl.
  rewrite FR. cbn beta iota. intros [= <- _]. reflexivity.
Qed.

(** X7.  A valid fragment of fewer than 320 samples is answered with the empty
    partial result; nothing but the session's lock entry is touched. *)
Theorem short_fragment_skipped req st :
  is_Some (model st) ->
  end_of_utt_of req = false ->
  len (data req) <> 0 ->
  len (data req) mod 4 = 0 ->
  len (data req) < 1280 ->
  handle req st
  = Some (Normal (text_response (JStr EmptyString) "partial"),
          with_lock_entry (session_id_of req) st).
Proof.
  intros Hm Heou N A S. rewrite handle_unfold by exact Hm. rewrite Heou.
  unfold try_except.
  rewrite (audio_branch_valid E json_loads _ _ _ _ (convert_float32_valid _ N A)).
  unfold try_except, bind, lift. rewrite prepare_pcm_short; [reflexivity|].
  rewrite len_tobytes. simpl items.
  pose proof (len_float32_items _ A) as L4. unfold len in *.
  rewrite length_map. lia.
Qed.

(** X8.  A valid fragment of at least 320 samples in whose first 16000 quantised
    samples two neighbours differ by more than 20000 is answered with status
    500, the write of the declick pass being refused; the engine is not
    called and no handle is created. *)
Theorem jump_fragment_fails req st :
  is_Some (model st) ->
  end_of_utt_of req = false ->
  len (data req) mod 4 = 0 ->
  1280 <= len (data req) ->
  20000 < np_max (abs_diff (take (Z.to_nat 16000)
                              (map Spec.normalize_sample (float32_items (data req))))) ->
  handle req st
  = Some (Normal (error_response 500
                    "Vosk处理失败: assignment destination is read-only"),
          with_lock_entry (session_id_of req) st).
Proof.
  intros Hm Heou A L J. rewrite handle_unfold by exact Hm. rewrite Heou.
  unfold try_except.
  assert (len (data req) <> 0) as N by lia.
  rewrite (audio_branch_valid E json_loads _ _ _ _
             (convert_float32_valid _ N A)).
  unfold try_except, bind, lift.
  rewrite prepare_pcm_long.
  - rewrite samples_read_back by apply quantised_in_int16.
    rewrite (proj2 (Z.ltb_lt _ _) J). reflexivity.
  - rewrite len_tobytes. simpl items.
    pose proof (len_float32_items _ A) as L4. unfold len in *.
    rewrite length_map. lia.
Qed.

End Streaming.

(** ** Fragments that reach the engine *)

Section Feeding.

Context (E : Engine).
Context (json_loads : string -> outcome (gmap string JValue)).

Local Abbreviation handle := (recognize_audio_stream E json_loads).

Implicit Types (st : State E) (req : Request) (session_id : string).

(** X9.  A fragment the engine accepts: the session's handle is the one already
    registered, or else a new one that is registered now; the fragment is fed
    to it once; an utterance boundary gives the final result, anything else
    the partial one; the lock is given back. *)
Theorem fragment_recognised
    req st int16_data audio_bytes padded h es (b : bool) es1 text es2 result :
  is_Some (model st) ->
  end_of_utt_of req = false ->
  session_id_of req ∉ session_closed st ->
  lock_free (session_id_of req) st ->
  convert_float32 (data req) = Normal (Some int16_data) ->
  prepare_pcm int16_data = Normal (Pcm audio_bytes padded) ->
  (recognizers st !! session_id_of req = Some h /\ es = engine st) \/
  (recognizers st !! session_id_of req = None /\
   KaldiRecognizer E (model st) 16000 (engine st) = (Normal h, es)) ->
  AcceptWaveform E h audio_bytes es = (Normal b, es1) ->
  (if b then Result E h es1 else PartialResult E h es1) = (Normal text, es2) ->
  json_loads text = Normal result ->
  exists st',
    handle req st
    = Some (Normal
              (if b
               then scored_response (dict_get result "text" (JStr EmptyString))
                      (dict_get result "confidence" (JNum 0)) "final"
               else text_response (dict_get result "partial" (JStr EmptyString))
                      "partial"), st') /\
    recognizers st' !! session_id_of req = Some h /\
    engine st' = es2 /\
    calls st'
    = calls st
      ++ (if recognizers st !! session_id_of req is Some _ then []
          else [CallKaldiRecognizer])
      ++ [CallAcceptWaveform h audio_bytes;
          if b then CallResult h else CallPartialResult h] /\
    lock_heap st' = lock_heap st ++ [false; false].
Proof.
  intros Hm Heou C F Hc Hp Hh Ha Hr Hj.
  rewrite handle_unfold by exact Hm. rewrite Heou.
  unfold try_except. rewrite (audio_branch_valid _ _ _ _ _ _ Hc).
  unfold try_except, bind at 1, lift. rewrite Hp.
  set (sid := session_id_of req) in *.
  assert (lock_free sid (with_lock_entry sid st)) as F1
    by (apply lock_entry_keeps_free, F).
  pose proof (released_heap _ _ (lock_entry_free _ sid _ F1)) as RH.
  unfold feed_session. unfold bind at 1. rewrite setdefault_lock_eq.
  rewrite with_lock_free by (apply lock_entry_free, F1).
  unfold bind at 1. unfold gets at 1. cbn beta iota. state_simpl.
  rewrite decide_False by exact C.
  unfold recognizer_for, recognize, accept_waveform, result_of,
    partial_result_of, new_recognizer, try_except, bind, gets, modify,
    engine_call, lift, ret.
  cbn beta iota. state_simpl.
  destruct Hh as [[R ->]|[R K]]; rewrite R; cbn beta iota; state_simpl;
    rewrite ?K; cbn beta iota; state_simpl; rewrite Ha; cbn beta iota;
    destruct b; cbn beta iota; state_simpl; rewrite Hr; cbn beta iota;
    rewrite Hj; (eexists; split; [reflexivity|]); state_simpl; rewrite RH;
    rewrite <- ?app_assoc; repeat split;
    first [assumption | apply lookup_insert_eq | reflexivity].
Qed.

(** X10.  When the engine cannot create a handle, the answer is status 500 with
    the exception text; no handle is registered, nothing is fed and the lock
    is given back. *)
Theorem recognizer_creation_failure
    req st int16_data audio_bytes padded e es :
  is_Some (model st) ->
  end_of_utt_of req = false ->
  session_id_of req ∉ session_closed st ->
  lock_free (session_id_of req) st ->
  convert_float32 (data req) = Normal (Some int16_data) ->
  prepare_pcm int16_data = Normal (Pcm audio_bytes padded) ->
  recognizers st !! session_id_of req = None ->
  KaldiRecognizer E (model st) 16000 (engine st) = (Raised e, es) ->
  exists st',
    handle req st
    = Some (Normal (error_response 500 ("创建识别器失败: " ++ e)), st') /\
    recognizers st' = recognizers st /\
    calls st' = calls st ++ [CallKaldiRecognizer] /\
    lock_heap st' = lock_heap st ++ [false; false].
Proof.
  intros Hm Heou C F Hc Hp R K.
  rewrite handle_unfold by exact Hm. rewrite Heou.
  unfold try_except. rewrite (audio_branch_valid _ _ _ _ _ _ Hc).
  unfold try_except, bind at 1, lift. rewrite Hp.
  set (sid := session_id_of req) in *.
  assert (lock_free sid (with_lock_entry sid st)) as F1
    by (apply lock_entry_keeps_free, F).
  pose proof (released_heap _ _ (lock_entry_free _ sid _ F1)) as RH.
  unfold feed_session. unfold bind at 1. rewrite setdefault_lock_eq.
  rewrite with_lock_free by (apply lock_entry_free, F1).
  unfold bind at 1. unfold gets at 1. cbn beta iota. state_simpl.
  rewrite decide_False by exact C.
  unfold recognizer_for, new_recognizer, try_except, bind, gets, modify,
    engine_call, lift, ret.
  cbn beta iota. state_simpl. rewrite R. cbn beta iota. state_simpl.
  rewrite K. cbn beta iota.
  eexists. split; [reflexivity|]. state_simpl. rewrite RH, <- app_assoc.
  repeat split; reflexivity.
Qed.

End Feeding.

(** ** Sessions do not interfere *)

Section Isolation.

Context (E : Engine).
Context (json_loads : string -> outcome (gmap string JValue)).

Local Abbreviation handle := (recognize_audio_stream E json_loads).

Implicit Types (st : State E) (req : Request) (session_id : string).

Lemma lock_entry_other session_id other st :
  other <> session_id ->
  session_locks (with_lock_entry session_id st) !! other
  = session_locks st !! other.
Proof.
  intros Ne. unfold with_lock_entry. cbn [session_locks].
  destruct (session_locks st !! session_id); [reflexivity|].
  apply lookup_insert_ne. congruence.
Qed.

Lemma feed_session_other session_id other audio_bytes st r st' :
  other <> session_id ->
  feed_session E json_loads session_id audio_bytes st = Some (r, st') ->
  recognizers st' !! other = recognizers st !! other /\
  session_locks st' !! other = session_locks st !! other /\
  session_closed st' = session_closed st /\
  rec st' = rec st /\ model st' = model st.
Proof.
  intros Ne. unfold feed_session. unfold bind at 1. rewrite setdefault_lock_eq.
  pose proof (lock_entry_other session_id other st Ne) as L1.
  set (st1 := with_lock_entry session_id st) in *.
  assert (recognizers st1 = recognizers st) as R1 by reflexivity.
  assert (session_closed st1 = session_closed st) as C1 by reflexivity.
  assert (rec st1 = rec st) as Rc1 by reflexivity.
  assert (model st1 = model st) as M1 by reflexivity.
  clearbody st1.
  unfold with_lock, acquire, try_finally, release, recognizer_for, recognize,
    accept_waveform, result_of, partial_result_of, new_recognizer,
    try_except, engine_call, bind, gets, modify, lift, ret.
  cbn beta iota. state_simpl.
  case_split; intros H; inversion H; subst; clear H; state_simpl;
    rewrite ?lookup_insert_ne by congruence;
    rewrite R1, L1, C1, Rc1, M1; repeat split; reflexivity.
Qed.

Lemma handle_other req st r st' other :
  handle req st = Some (r, st') ->
  other <> session_id_of req ->
  recognizers st' !! other = recognizers st !! other /\
  session_locks st' !! other = session_locks st !! other /\
  (other ∈ session_closed st' <-> other ∈ session_closed st) /\
  rec st' = rec st /\ model st' = model st.
Proof.
  intros H Ne. revert H.
  unfold recognize_audio_stream. unfold bind at 1. unfold gets at 1.
  cbn beta iota.
  destruct (negb (bool_decide (is_Some (model st)))).
  { intros [= <- <-]. repeat split; auto. }
  unfold try_except at 1. unfold bind at 1. rewrite setdefault_lock_eq.
  set (sid := session_id_of req) in *.
  pose proof (lock_entry_other sid other st Ne) as L1.
  destruct (end_of_utt_of req).
  - set (st1 := with_lock_entry sid st) in *.
    assert (recognizers st1 = recognizers st) as R1 by reflexivity.
    assert (session_closed st1 = session_closed st) as C1 by reflexivity.
    assert (rec st1 = rec st) as Rc1 by reflexivity.
    assert (model st1 = model st) as M1 by reflexivity.
    clearbody st1.
    unfold end_of_utterance, with_lock, acquire, try_finally, release,
      final_result_of, engine_call, bind, gets, modify, lift, ret.
    cbn beta iota. state_simpl.
    case_split; intros H; inversion H; subst; clear H; state_simpl;
      rewrite ?lookup_delete_ne by congruence;
      rewrite R1, L1, C1, Rc1, M1; repeat split; try reflexivity;
      rewrite elem_of_difference, elem_of_union, !elem_of_singleton;
      tauto.
  - assert (forall resp,
               Some (Normal resp, with_lock_entry sid st) = Some (r, st') ->
               recognizers st' !! other = recognizers st !! other /\
               session_locks st' !! other = session_locks st !! other /\
               (other ∈ session_closed st' <-> other ∈ session_closed st) /\
               rec st' = rec st /\ model st' = model st) as Quiet.
    { intros resp [= <- <-]. rewrite L1. repeat split; auto. }
    unfold audio_branch.
    destruct (len (data req) =? 0); [apply Quiet|].
    destruct (negb (len (data req) mod 4 =? 0)); [apply Quiet|].
    destruct (convert_float32 (data req)) as [[int16_data|]|e];
      [|apply Quiet..].
    unfold try_except, bind, lift, ret.
    destruct (prepare_pcm int16_data) as [[|audio_bytes padded]|e];
      [apply Quiet| |apply Quiet].
    destruct (feed_session E json_loads sid audio_bytes (with_lock_entry sid st))
      as [[r1 st1]|] eqn:Feed; [|discriminate].
    apply (feed_session_other sid other) in Feed as (R & L & C & Rc & M);
      [|exact Ne].
    rewrite L1 in L. cbn [recognizers session_closed rec model with_lock_entry] in *.
    intros Hr. assert (st1 = st') as <- by (destruct r1; congruence).
    rewrite C. repeat split; auto.
Qed.

(** X11.  Whatever a request does to its own session, the handle and the lock
    entry of every other session id, the closed markers of the other ids, the
    recognizer of the upload path and the model are as before. *)
Theorem stream_other_sessions_untouched req st r st' other :
  handle req st = Some (r, st') ->
  other <> session_id_of req ->
  recognizers st' !! other = recognizers st !! other /\
  session_locks st' !! other = session_locks st !! other /\
  (other ∈ session_closed st' <-> other ∈ session_closed st) /\
  rec st' = rec st /\ model st' = model st.
Proof. exact (handle_other req st r st' other). Qed.

Lemma lock_entry_own session_id st :
  is_Some (session_locks (with_lock_entry session_id st) !! session_id).
Proof.
  unfold with_lock_entry. cbn [session_locks].
  destruct (session_locks st !! session_id) as [l|] eqn:L.
  - rewrite L. eexists. reflexivity.
  - rewrite lookup_insert_eq. eexists. reflexivity.
Qed.

Lemma feed_session_own session_id audio_bytes st r st' :
  feed_session E json_loads session_id audio_bytes st = Some (r, st') ->
  is_Some (session_locks st' !! session_id).
Proof.
  unfold feed_session. unfold bind at 1. rewrite setdefault_lock_eq.
  pose proof (lock_entry_own session_id st) as L1.
  set (st1 := with_lock_entry session_id st) in *.
  clearbody st1.
  unfold with_lock, acquire, try_finally, release, recognizer_for, recognize,
    accept_waveform, result_of, partial_result_of, new_recognizer,
    try_except, engine_call, bind, gets, modify, lift, ret.
  cbn beta iota. state_simpl.
  case_split; intros H; inversion H; subst; clear H; state_simpl; exact L1.
Qed.

Lemma handle_own req st r st' :
  handle req st = Some (r, st') ->
  sessions_locked st ->
  is_Some (recognizers st' !! session_id_of req) ->
  is_Some (session_locks st' !! session_id_of req).
Proof.
  intros H Inv. revert H.
  unfold recognize_audio_stream. unfold bind at 1. unfold gets at 1.
  cbn beta iota.
  destruct (negb (bool_decide (is_Some (model st)))).
  { intros [= <- <-]. apply Inv. }
  unfold try_except at 1. unfold bind at 1. rewrite setdefault_lock_eq.
  set (sid := session_id_of req) in *.
  pose proof (lock_entry_own sid st) as L1.
  destruct (end_of_utt_of req).
  - set (st1 := with_lock_entry sid st) in *. clearbody st1.
    unfold end_of_utterance, with_lock, acquire, try_finally, release,
      final_result_of, engine_call, bind, gets, modify, lift, ret.
    cbn beta iota. state_simpl.
    case_split; intros H; inversion H; subst; clear H; state_simpl;
      rewrite ?lookup_delete_eq; intros [x Hx]; congruence.
  - assert (forall resp,
               Some (Normal resp, with_lock_entry sid st) = Some (r, st') ->
               is_Some (recognizers st' !! sid) ->
               is_Some (session_locks st' !! sid)) as Quiet.
    { intros resp [= <- <-] _. exact L1. }
    unfold audio_branch.
    destruct (len (data req) =? 0); [apply Quiet|].
    destruct (negb (len (data req) mod 4 =? 0)); [apply Quiet|].
    destruct (convert_float32 (data req)) as [[int16_data|]|e];
      [|apply Quiet..].
    unfold try_except, bind, lift, ret.
    destruct (prepare_pcm int16_data) as [[|audio_bytes padded]|e];
      [apply Quiet| |apply Quiet].
    destruct (feed_session E json_loads sid audio_bytes (with_lock_entry sid st))
      as [[r1 st1]|] eqn:Feed; [|discriminate].
    apply feed_session_own in Feed.
    intros Hr. assert (st1 = st') as <- by (destruct r1; congruence).
    intros _. exact Feed.
Qed.

Lemma stream_sessions_locked req st r st' :
  handle req st = Some (r, st') ->
  sessions_locked st -> sessions_locked st'.
Proof.
  intros H Inv other Hh.
  destruct (decide (other = session_id_of req)) as [->|Ne].
  - exact (handle_own req st r st' H Inv Hh).
  - destruct (handle_other req st r st' other H Ne) as (R & L & _).
    rewrite L. apply Inv. rewrite <- R. exact Hh.
Qed.

Lemma reset_registry st r st' :
  reset_recognizer E st = Some (r, st') ->
  recognizers st' = recognizers st /\ session_locks st' = session_locks st.
Proof.
  unfold reset_recognizer, try_except, new_recognizer, engine_call, bind,
    gets, modify, lift, ret.
  cbn beta iota.
  case_split; intros H; inversion H; subst; clear H; state_simpl;
    split; reflexivity.
Qed.

End Isolation.

(** ** The session id of a request *)

(** X12.  The session id is the first non-empty one of the [X-Session-Id] header,
    the [session_id] query argument and the remote address, and [default]
    when there is none; it is never the empty string. *)
Theorem session_id_resolution (req : Request) :
  session_id_of req
  = first_truthy [header_session_id req; arg_session_id req; remote_addr req]
      "default" /\
  session_id_of req <> EmptyString.
Proof.
  unfold session_id_of, py_or, first_truthy, truthy.
  destruct (header_session_id req) as [[|c1 h]|],
    (arg_session_id req) as [[|c2 a]|],
    (remote_addr req) as [[|c3 x]|]; simpl; split;
    first [reflexivity | discriminate].
Qed.

(** ** The upload path *)

Section Upload.

Context (E : Engine).
Context (json_loads : string -> outcome (gmap string JValue)).
Context (wave_open : list byte -> outcome WavFile).

Implicit Types (st : State E).

Lemma upload_run audio tmp st r st' :
  recognize_audio E json_loads wave_open audio tmp st = Some (r, st') ->
  model st' = model st /\
  recognizers st' = recognizers st /\
  session_locks st' = session_locks st /\
  session_closed st' = session_closed st /\
  lock_heap st' = lock_heap st.
Proof.
  unfold recognize_audio, recognize, accept_waveform, result_of,
    partial_result_of, try_except, engine_call, bind, gets, modify, lift, ret.
  cbn beta iota.
  case_split; intros H; inversion H; subst; clear H; state_simpl;
    repeat split; first [reflexivity | congruence].
Qed.

(** X13.  [/recognize] always answers, and never touches the model, its own
    recognizer variable, the session registry or a lock. *)
Theorem upload_leaves_registry audio tmp st :
  exists resp tmp' st',
    recognize_audio E json_loads wave_open audio tmp st = Some (Normal (resp, tmp'), st') /\
    model st' = model st /\ rec st' = rec st /\
    recognizers st' = recognizers st /\
    session_locks st' = session_locks st /\
    session_closed st' = session_closed st /\
    lock_heap st' = lock_heap st.
Proof.
  unfold recognize_audio, recognize, accept_waveform, result_of,
    partial_result_of, try_except, engine_call, bind, gets, modify, lift, ret.
  cbn beta iota.
  case_split; (eexists _, _, _; split; [reflexivity|]); state_simpl;
    repeat split; first [reflexivity | congruence].
Qed.

(** X14.  What becomes of the temporary file of an upload: a file that does not
    open as WAVE (status 500) or has the wrong format (status 400) is left
    behind and the engine is not called; only a file of the right format is
    removed before the engine is called. *)
Theorem upload_temp_file content tmp st m h :
  model st = Some m ->
  rec st = Some h ->
  exists resp tmp' st',
    recognize_audio E json_loads wave_open (Some content) tmp st
    = Some (Normal (resp, tmp'), st') /\
    match wave_open content with
    | Raised e =>
        resp = error_response 500 e /\ tmp' = tmp ++ [content] /\ st' = st
    | Normal wf =>
        if (nchannels wf =? 1) && (sampwidth wf =? 2) && (framerate wf =? 16000)
        then tmp' = tmp
        else resp = error_response 400 (unsupported_format wf) /\
             tmp' = tmp ++ [content] /\ st' = st
    end.
Proof.
  intros Hm Hr.
  unfold recognize_audio, recognize, accept_waveform, result_of,
    partial_result_of, try_except, engine_call, bind, gets, modify, lift, ret.
  cbn beta iota. rewrite Hm, Hr.
  destruct (wave_open content) as [wf|e].
  - destruct (nchannels wf =? 1), (sampwidth wf =? 2), (framerate wf =? 16000);
      cbn [negb orb andb];
      try (eexists _, _, _; split; [reflexivity|]; repeat split; reflexivity).
    case_split; (eexists _, _, _; split; reflexivity).
  - eexists _, _, _. split; [reflexivity|]. repeat split; reflexivity.
Qed.

(** X15.  The engine calls of an upload: the frames of the file are fed to the
    recognizer [rec] holds, whose result or partial result is then asked
    for; no handle is created and no session handle is used. *)
Theorem upload_engine_calls audio tmp st h r st' :
  rec st = Some h ->
  recognize_audio E json_loads wave_open audio tmp st = Some (r, st') ->
  exists new_calls,
    calls st' = calls st ++ new_calls /\
    forall c, In c new_calls ->
      (exists content wf,
         audio = Some content /\ wave_open content = Normal wf /\
         c = CallAcceptWaveform h (frames wf)) \/
      c = CallResult h \/ c = CallPartialResult h.
Proof.
  intros Hr.
  unfold recognize_audio, recognize, accept_waveform, result_of,
    partial_result_of, try_except, engine_call, bind, gets, modify, lift, ret.
  cbn beta iota. rewrite Hr.
  assert (forall x, Some (Normal x, st) = Some (r, st') ->
            exists new_calls,
              calls st' = calls st ++ new_calls /\
              forall c, In c new_calls ->
                (exists content wf,
                   audio = Some content /\ wave_open content = Normal wf /\
                   c = CallAcceptWaveform h (frames wf)) \/
                c = CallResult h \/ c = CallPartialResult h) as Quiet.
  { intros x [= <- <-]. exists []. split; [symmetry; apply app_nil_r|].
    intros ? []. }
  destruct (model st); cbn beta iota; [|apply Quiet].
  destruct audio as [content|]; cbn beta iota; [|apply Quiet].
  destruct (wave_open content) as [wf|e] eqn:W; cbn beta iota; [|apply Quiet].
  clear Quiet.
  case_split; intros H; inversion H; subst; clear H; state_simpl;
    rewrite <- ?app_assoc;
    (eexists; split; [first [reflexivity | symmetry; apply app_nil_r]|]);
    intros c Hin; simpl in Hin;
    repeat (destruct Hin as [<-|Hin]; [eauto 6|]); contradiction.
Qed.

End Upload.

(** ** The start of the service and what every request keeps *)

Section Serving.

Context (E : Engine).
Context (json_loads : string -> outcome (gmap string JValue)).
Context (wave_open : list byte -> outcome WavFile).
Context (path_exists : string -> bool).
Context (load_model : string -> outcome Model).

Implicit Types (st : State E).

(** X16.  The service starts exactly when the model directory exists, the model
    loads and the engine delivers the first recognizer; these two are then
    set and the registry is empty. *)
Theorem start_outcome (e : estate E) st :
  start E path_exists load_model e = Some st <->
  path_exists MODEL_PATH = true /\
  exists m h es,
    load_model MODEL_PATH = Normal m /\
    KaldiRecognizer E (Some m) 16000 e = (Normal h, es) /\
    st = @mk_state E (Some m) (Some h) ∅ ∅ ∅ [] es [CallKaldiRecognizer].
Proof.
  unfold start, init_vosk_model, new_recognizer, try_except, engine_call,
    bind, gets, modify, lift, ret, blank_state, set_model.
  destruct (path_exists MODEL_PATH); cbn [negb]; cbn beta iota.
  - destruct (load_model MODEL_PATH) as [m|err]; cbn beta iota; state_simpl.
    + destruct (KaldiRecognizer E (Some m) 16000 e) as [[h|err] es] eqn:K;
        cbn beta iota; state_simpl.
      * split.
        -- intros [= <-]. split; [reflexivity|]. exists m, h, es.
           split; [reflexivity|]. split; [exact K|reflexivity].
        -- intros (_ & m' & h' & es' & [= <-] & K' & ->).
           rewrite K in K'. injection K' as <- <-. reflexivity.
      * split; [discriminate|].
        intros (_ & m' & h' & es' & [= <-] & K' & _).
        rewrite K in K'. discriminate K'.
    + split; [discriminate|].
      intros (_ & m' & h' & es' & L & _). discriminate L.
  - split; [discriminate|]. intros [P _]. discriminate P.
Qed.

(** X17.  When the model loads and the engine then fails to create the
    recognizer, [init_vosk_model] returns [False] with the model left set:
    the health check reports the model as loaded while the upload path
    answers that it is not initialised. *)
Theorem init_partial_failure (e : estate E) m err es audio tmp :
  path_exists MODEL_PATH = true ->
  load_model MODEL_PATH = Normal m ->
  KaldiRecognizer E (Some m) 16000 e = (Raised err, es) ->
  exists st,
    init_vosk_model E path_exists load_model (blank_state e)
    = Some (Normal false, st) /\
    model st = Some m /\ rec st = None /\
    health_check E st
    = Some (Normal {| status := 200;
                      body := [("status", JStr "ok");
                               ("model_loaded", JBool true)] |}, st) /\
    recognize_audio E json_loads wave_open audio tmp st
    = Some (Normal (model_not_initialised, tmp), st).
Proof.
  intros P L K.
  unfold init_vosk_model, new_recognizer, try_except, engine_call,
    bind, gets, modify, lift, ret, blank_state, set_model.
  rewrite P, L. cbn [negb]. cbn beta iota. state_simpl. rewrite K.
  cbn beta iota. eexists. split; [reflexivity|].
  repeat split; reflexivity.
Qed.

Lemma start_inv (e : estate E) st :
  start E path_exists load_model e = Some st ->
  exists m h es, st = @mk_state E (Some m) (Some h) ∅ ∅ ∅ [] es [CallKaldiRecognizer].
Proof.
  unfold start, init_vosk_model, new_recognizer, try_except, engine_call,
    bind, gets, modify, lift, ret, blank_state, set_model.
  cbn beta iota.
  case_split; intros H; inversion H; subst; clear H; state_simpl;
    eexists _, _, _; reflexivity.
Qed.

Lemma start_quiescent (e : estate E) st :
  start E path_exists load_model e = Some st -> quiescent st.
Proof.
  intros H. apply start_inv in H as (m & h & es & ->).
  split; [eexists; reflexivity|]. split; [reflexivity|].
  split; [apply List.Forall_nil|]. intros sid l Hl.
  cbn [session_locks] in Hl. rewrite lookup_empty in Hl. discriminate.
Qed.

Lemma start_sessions_locked (e : estate E) st :
  start E path_exists load_model e = Some st -> sessions_locked st.
Proof.
  intros H. apply start_inv in H as (m & h & es & ->).
  intros sid [x Hx]. cbn [recognizers] in Hx. rewrite lookup_empty in Hx.
  discriminate.
Qed.

Lemma step_quiescent st st' :
  quiescent st -> step json_loads wave_open st st' -> quiescent st'.
Proof.
  intros Q S. revert Q.
  destruct S as [req r st1 st2 H|r st1 st2 H|audio tmp r st1 st2 H|r st1 st2 H];
    intros Q.
  - destruct (handle_run E json_loads req _ (proj1 Q)
                (quiescent_lock_free _ _ _ Q)) as (resp & st3 & H' & Fr).
    rewrite H in H'. injection H' as -> ->.
    exact (frame_quiescent _ _ _ Q Fr).
  - destruct (reset_run E st1) as (resp & st3 & H' & Fr).
    rewrite H in H'. injection H' as -> ->.
    exact (frame_quiescent _ _ _ Q Fr).
  - destruct (upload_run E json_loads wave_open audio tmp st1 r st2 H)
      as (M & _ & L & C & Hp).
    destruct Q as (Hm & Hc & Free & Wf).
    split; [rewrite M; exact Hm|]. split; [rewrite C; exact Hc|].
    rewrite Hp, L. split; assumption.
  - unfold health_check, bind, gets, ret in H. injection H as _ <-. exact Q.
Qed.

Lemma step_sessions_locked st st' :
  sessions_locked st -> step json_loads wave_open st st' -> sessions_locked st'.
Proof.
  intros Inv S. revert Inv.
  destruct S as [req r st1 st2 H|r st1 st2 H|audio tmp r st1 st2 H|r st1 st2 H];
    intros Inv.
  - exact (stream_sessions_locked E json_loads req st1 r st2 H Inv).
  - destruct (reset_registry E st1 r st2 H) as (R & L).
    intros sid. rewrite R, L. apply Inv.
  - destruct (upload_run E json_loads wave_open audio tmp st1 r st2 H)
      as (_ & R & L & _).
    intros sid. rewrite R, L. apply Inv.
  - unfold health_check, bind, gets, ret in H. injection H as _ <-. exact Inv.
Qed.

Lemma run_quiescent (e : estate E) st0 st :
  start E path_exists load_model e = Some st0 ->
  rtc (step json_loads wave_open) st0 st ->
  quiescent st /\ sessions_locked st.
Proof.
  intros S R.
  pose proof (start_quiescent e st0 S) as Q.
  pose proof (start_sessions_locked e st0 S) as Inv. clear S.
  induction R as [|st1 st2 st3 H _ IH]; [split; assumption|].
  apply IH; [exact (step_quiescent _ _ Q H)|exact (step_sessions_locked _ _ Inv H)].
Qed.

(** X18.  From a successful start on, after any number of requests on any of the
    four routes served one after the other: the model is loaded, no session
    is marked closed, no lock is held, every lock entry refers to an
    existing lock, and every session that has a recognizer has a lock entry,
    whose lock is free. *)
Theorem served_quiescent (e : estate E) st0 st :
  start E path_exists load_model e = Some st0 ->
  rtc (step json_loads wave_open) st0 st ->
  quiescent st /\
  forall session_id h,
    recognizers st !! session_id = Some h ->
    exists lock,
      session_locks st !! session_id = Some lock /\
      lock_heap st !! lock = Some false.
Proof.
  intros S R. destruct (run_quiescent e st0 st S R) as [Q Inv].
  split; [exact Q|]. intros sid h Hh.
  destruct (Inv sid (ex_intro _ h Hh)) as [lock Hl].
  exists lock. split; [exact Hl|].
  exact (quiescent_lock_free _ _ sid Q lock Hl).
Qed.

(** X19.  In such a run a [/recognize_stream] request never waits for a lock and
    never fails to answer. *)
Theorem served_answered (e : estate E) st0 st req :
  start E path_exists load_model e = Some st0 ->
  rtc (step json_loads wave_open) st0 st ->
  exists resp st',
    recognize_audio_stream E json_loads req st = Some (Normal resp, st') /\
    rtc (step json_loads wave_open) st0 st'.
Proof.
  intros S R. destruct (run_quiescent e st0 st S R) as [Q _].
  destruct (handle_run E json_loads req _ (proj1 Q)
              (quiescent_lock_free _ _ _ Q)) as (resp & st' & H & _).
  exists resp, st'. split; [exact H|].
  eapply rtc_r; [exact R|]. eapply step_stream. exact H.
Qed.

End Serving.

(** ** The shape of the answers *)

Lemma error_response_coherent (code : Z) (msg : string) :
  code = 400 \/ code = 500 -> coherent_answer (error_response code msg).
Proof.
  intros C. right. split; [exact C|]. split; [reflexivity|].
  exists msg. reflexivity.
Qed.

Lemma text_response_result (text : JValue) (type : string) :
  type = "partial" \/ type = "final" ->
  coherent_answer (text_response text type) /\
  (status (text_response text type) = 200 ->
   recognition_answer (text_response text type)).
Proof.
  intros T. split.
  - left. repeat split; reflexivity.
  - intros _. split; [eexists; reflexivity|].
    destruct T as [->| ->]; [left|right]; reflexivity.
Qed.

Lemma scored_response_result (text confidence : JValue) (type : string) :
  type = "partial" \/ type = "final" ->
  coherent_answer (scored_response text confidence type) /\
  (status (scored_response text confidence type) = 200 ->
   recognition_answer (scored_response text confidence type)).
Proof.
  intros T. split.
  - left. repeat split; reflexivity.
  - intros _. split; [eexists; reflexivity|].
    destruct T as [->| ->]; [left|right]; reflexivity.
Qed.

Lemma error_response_result (code : Z) (msg : string) :
  code = 400 \/ code = 500 ->
  coherent_answer (error_response code msg) /\
  (status (error_response code msg) = 200 ->
   recognition_answer (error_response code msg)).
Proof.
  intros C. split; [apply error_response_coherent, C|].
  cbn [status error_response]. intros ->. destruct C; discriminate.
Qed.

Ltac answer_shape :=
  first [ apply text_response_result; auto
        | apply scored_response_result; auto
        | apply error_response_result; auto ].

Section Answers.

Context (E : Engine).
Context (json_loads : string -> outcome (gmap string JValue)).
Context (wave_open : list byte -> outcome WavFile).

Local Abbreviation handle := (recognize_audio_stream E json_loads).
Implicit Types (st : State E) (req : Request) (session_id : string).

Lemma feed_session_answer session_id audio_bytes st r st' :
  feed_session E json_loads session_id audio_bytes st = Some (r, st') ->
  forall resp, r = Normal resp ->
    coherent_answer resp /\ (status resp = 200 -> recognition_answer resp).
Proof.
  unfold feed_session. unfold bind at 1. rewrite setdefault_lock_eq.
  set (st1 := with_lock_entry session_id st) in *. clearbody st1.
  unfold with_lock, acquire, try_finally, release, recognizer_for, recognize,
    accept_waveform, result_of, partial_result_of, new_recognizer,
    try_except, engine_call, bind, gets, modify, lift, ret.
  cbn beta iota. state_simpl.
  case_split; intros H; inversion H; subst; clear H;
    intros resp [= <-]; answer_shape.
Qed.

(** X20.  [/recognize_stream] never lets an exception out, and each of its answers
    is coherent: status 200 with [success] true, a [text] and the [type]
    [partial] or [final], or status 400 or 500 with [success] false and an
    [error] text. *)
Theorem stream_answer_shape req st r st' :
  handle req st = Some (r, st') ->
  exists resp,
    r = Normal resp /\
    coherent_answer resp /\
    (status resp = 200 -> recognition_answer resp).
Proof.
  unfold recognize_audio_stream. unfold bind at 1. unfold gets at 1.
  cbn beta iota.
  destruct (negb (bool_decide (is_Some (model st)))).
  { intros [= <- <-]. eexists. split; [reflexivity|]. answer_shape. }
  unfold try_except at 1. unfold bind at 1. rewrite setdefault_lock_eq.
  set (sid := session_id_of req) in *.
  destruct (end_of_utt_of req).
  - set (st1 := with_lock_entry sid st) in *. clearbody st1.
    unfold end_of_utterance, with_lock, acquire, try_finally, release,
      final_result_of, engine_call, bind, gets, modify, lift, ret.
    cbn beta iota. state_simpl.
    case_split; intros H; inversion H; subst; clear H;
      (eexists; split; [reflexivity|]); answer_shape.
  - assert (forall resp,
               coherent_answer resp /\
               (status resp = 200 -> recognition_answer resp) ->
               Some (Normal resp, with_lock_entry sid st) = Some (r, st') ->
               exists resp,
                 r = Normal resp /\
                 coherent_answer resp /\
                 (status resp = 200 -> recognition_answer resp)) as Quiet.
    { intros resp Hs [= <- <-]. exists resp. split; [reflexivity|exact Hs]. }
    unfold audio_branch.
    destruct (len (data req) =? 0); [apply Quiet; answer_shape|].
    destruct (negb (len (data req) mod 4 =? 0)); [apply Quiet; answer_shape|].
    destruct (convert_float32 (data req)) as [[int16_data|]|e];
      [|apply Quiet; answer_shape..].
    unfold try_except, bind, lift, ret.
    destruct (prepare_pcm int16_data) as [[|audio_bytes padded]|e];
      [apply Quiet; answer_shape| |apply Quiet; answer_shape].
    destruct (feed_session E json_loads sid audio_bytes (with_lock_entry sid st))
      as [[r1 st1]|] eqn:Feed; [|discriminate].
    pose proof (feed_session_answer _ _ _ _ _ Feed) as A.
    destruct r1 as [resp|e]; intros [= <- <-]; (eexists; split; [reflexivity|]).
    + apply A. reflexivity.
    + answer_shape.
Qed.

(** X21.  [/recognize] never lets an exception out either, and its answers have
    the same shape. *)
Theorem upload_answer_shape audio tmp st r st' :
  recognize_audio E json_loads wave_open audio tmp st = Some (r, st') ->
  exists resp tmp',
    r = Normal (resp, tmp') /\
    coherent_answer resp /\
    (status resp = 200 -> recognition_answer resp).
Proof.
  unfold recognize_audio, recognize, accept_waveform, result_of,
    partial_result_of, try_except, engine_call, bind, gets, modify, lift, ret.
  cbn beta iota.
  case_split; intros H; inversion H; subst; clear H;
    (eexists _, _; split; [reflexivity|]); answer_shape.
Qed.

End Answers.

(** ** Fragments that arrive after the end of an utterance *)

Section Late.

Context (E : Engine).
Context (json_loads : string -> outcome (gmap string JValue)).
Context (wave_open : list byte -> outcome WavFile).
Context (path_exists : string -> bool).
Context (load_model : string -> outcome Model).

Local Abbreviation handle := (recognize_audio_stream E json_loads).

Implicit Types (st : State E) (req : Request) (session_id : string).

(** A normalised fragment for a session that has neither a closed marker
    nor a recognizer: the engine is asked for a new recognizer, and when it
    delivers one the fragment is fed to it and it is registered. *)
Lemma fresh_fragment_reaches_engine req st int16_data audio_bytes padded :
  is_Some (model st) ->
  end_of_utt_of req = false ->
  session_id_of req ∉ session_closed st ->
  lock_free (session_id_of req) st ->
  recognizers st !! session_id_of req = None ->
  convert_float32 (data req) = Normal (Some int16_data) ->
  prepare_pcm int16_data = Normal (Pcm audio_bytes padded) ->
  exists resp st' rest,
    handle req st = Some (Normal resp, st') /\
    calls st' = calls st ++ CallKaldiRecognizer :: rest /\
    forall h es,
      KaldiRecognizer E (model st) 16000 (engine st) = (Normal h, es) ->
      recognizers st' !! session_id_of req = Some h /\
      exists rest', rest = CallAcceptWaveform h audio_bytes :: rest'.
Proof.
  intros Hm Heou C F R Hc Hp.
  rewrite handle_unfold by exact Hm. rewrite Heou.
  unfold try_except. rewrite (audio_branch_valid _ _ _ _ _ _ Hc).
  unfold try_except, bind at 1, lift. rewrite Hp.
  set (sid := session_id_of req) in *.
  assert (lock_free sid (with_lock_entry sid st)) as F1
    by (apply lock_entry_keeps_free, F).
  unfold feed_session. unfold bind at 1. rewrite setdefault_lock_eq.
  rewrite with_lock_free by (apply lock_entry_free, F1).
  unfold bind at 1. unfold gets at 1. cbn beta iota. state_simpl.
  rewrite decide_False by exact C.
  unfold recognizer_for, recognize, accept_waveform, result_of,
    partial_result_of, new_recognizer, try_except, bind, gets, modify,
    engine_call, lift, ret.
  cbn beta iota. state_simpl. rewrite R. cbn beta iota. state_simpl.
  destruct (KaldiRecognizer E (model st) 16000 (engine st)) as [[h|e] es] eqn:K;
    cbn beta iota; state_simpl.
  - case_split; (eexists _, _, _; split; [reflexivity|]); state_simpl;
      rewrite <- ?app_assoc; (split; [reflexivity|]);
      intros h' es' [= <- <-];
      (split; [apply lookup_insert_eq|eexists; reflexivity]).
  - eexists _, _, []. split; [reflexivity|]. state_simpl.
    split; [reflexivity|]. intros h' es' [=].
Qed.

(** C1.  The code misses what the claim says.  In every sequential run,
    once an end-of-utterance request has been answered no closed marker is
    left, so a fragment that then arrives for the same session id is not
    discarded: the engine is asked for a new recognizer, and when it delivers
    one the fragment is fed to it and it becomes the session's recognizer. *)
Theorem late_fragment_reaches_engine
    (e : estate E) st0 st req_end req int16_data audio_bytes padded :
  start E path_exists load_model e = Some st0 ->
  rtc (step json_loads wave_open) st0 st ->
  end_of_utt_of req_end = true ->
  end_of_utt_of req = false ->
  session_id_of req = session_id_of req_end ->
  convert_float32 (data req) = Normal (Some int16_data) ->
  prepare_pcm int16_data = Normal (Pcm audio_bytes padded) ->
  exists resp1 st1 resp2 st2 rest,
    handle req_end st = Some (Normal resp1, st1) /\
    session_closed st1 = ∅ /\
    handle req st1 = Some (Normal resp2, st2) /\
    calls st2 = calls st1 ++ CallKaldiRecognizer :: rest /\
    forall h es,
      KaldiRecognizer E (model st1) 16000 (engine st1) = (Normal h, es) ->
      recognizers st2 !! session_id_of req = Some h /\
      exists rest', rest = CallAcceptWaveform h audio_bytes :: rest'.
Proof.
  intros S Run Hend Heou Hsid Hc Hp.
  destruct (run_quiescent E json_loads wave_open path_exists load_model
              e st0 st S Run) as [Q _].
  destruct (end_request_run E json_loads req_end st (proj1 Q) Hend
              (quiescent_lock_free _ _ _ Q))
    as (resp1 & st1 & H1 & M1 & _ & R1 & L1 & C1 & _).
  assert (session_closed st1 = ∅) as Closed.
  { rewrite C1. destruct Q as (_ & -> & _). apply set_eq. intros x.
    rewrite elem_of_difference, elem_of_union, elem_of_singleton.
    split; [tauto|]. intros Hx. apply elem_of_empty in Hx. contradiction. }
  destruct (fresh_fragment_reaches_engine req st1 int16_data audio_bytes padded)
    as (resp2 & st2 & rest & H2 & Calls & Fed); try assumption.
  - rewrite M1. exact (proj1 Q).
  - rewrite Closed. apply not_elem_of_empty.
  - intros l Hl. rewrite L1, Hsid, lookup_delete_eq in Hl. discriminate.
  - rewrite R1, Hsid. apply lookup_delete_eq.
  - exists resp1, st1, resp2, st2, rest.
    split; [exact H1|]. split; [exact Closed|]. split; [exact H2|].
    split; [exact Calls|exact Fed].
Qed.

End Late.

(** ** The further properties on concrete requests *)

Lemma prepare_pcm_silence :
  prepare_pcm (repeat 0 320) = Normal (Pcm (repeat x00 640) false).
Proof. vm_compute. reflexivity. Qed.

Lemma convert_silence : convert_float32 silence = Normal (Some (repeat 0 320)).
Proof. vm_compute. reflexivity. Qed.

Lemma stream_without_model_witness :
  recognize_audio_stream (double_engine false) double_loads
    (fragment_request "s" silence) (@blank_state (double_engine false) 0%nat)
  = Some (Normal model_not_initialised, @blank_state (double_engine false) 0%nat).
Proof.
  apply (stream_without_model (double_engine false) double_loads
           (fragment_request "s" silence) (@blank_state (double_engine false) 0%nat)).
  reflexivity.
Defined.

Lemma end_request_ignores_body_witness :
  recognize_audio_stream (double_engine false) double_loads
    (end_request_with "s" [x00; x00; x00]) active_state
  = recognize_audio_stream (double_engine false) double_loads
      (end_request_with "s" []) active_state.
Proof.
  apply (end_request_ignores_body (double_engine false) double_loads
           (end_request_with "s" [x00; x00; x00]) (end_request_with "s" [])
           active_state); reflexivity.
Defined.

Lemma end_request_removes_session_witness :
  exists resp st',
    recognize_audio_stream failing_engine double_loads
      (end_request "s") failing_active = Some (Normal resp, st') /\
    recognizers st' !! session_id_of (end_request "s") = None /\
    session_locks st' !! session_id_of (end_request "s") = None /\
    (session_id_of (end_request "s") ∉ session_closed st') /\
    lock_heap st' = lock_heap failing_active ++ [false].
Proof.
  apply (end_request_removes_session failing_engine double_loads
           (end_request "s") failing_active).
  - eexists. reflexivity.
  - reflexivity.
  - intros l H. change (session_locks failing_active) with
      ({["s" := 0%nat]} : gmap string LockRef) in H.
    rewrite lookup_singleton_eq in H. injection H as <-. reflexivity.
Defined.

Lemma close_active_session_witness :
  exists st',
    recognize_audio_stream (double_engine false) double_loads
      (end_request "s") active_state
    = Some (Normal (scored_response (dict_get ∅ "text" (JStr EmptyString))
                      (dict_get ∅ "confidence" (JNum 0)) "final"), st') /\
    calls st' = calls active_state ++ [CallFinalResult 1%nat] /\
    engine st' = 2%nat /\
    recognizers st'
    = delete (session_id_of (end_request "s")) (recognizers active_state).
Proof.
  apply (close_active_session (double_engine false) double_loads
           (end_request "s") active_state 1%nat "{}" 2%nat ∅).
  - eexists. reflexivity.
  - reflexivity.
  - exact active_lock_free.
  - apply lookup_singleton_eq.
  - reflexivity.
  - reflexivity.
Defined.

Lemma close_failure_witness :
  exists st',
    recognize_audio_stream failing_engine double_loads
      (end_request "s") failing_active
    = Some (Normal (error_response 500 "engine failure"), st') /\
    recognizers st' !! session_id_of (end_request "s") = None /\
    session_locks st' !! session_id_of (end_request "s") = None /\
    (session_id_of (end_request "s") ∉ session_closed st') /\
    lock_heap st' = lock_heap failing_active ++ [false].
Proof.
  apply (close_failure failing_engine double_loads
           (end_request "s") failing_active 1%nat "engine failure" 0%nat).
  - eexists. reflexivity.
  - reflexivity.
  - intros l H. change (session_locks failing_active) with
      ({["s" := 0%nat]} : gmap string LockRef) in H.
    rewrite lookup_singleton_eq in H. injection H as <-. reflexivity.
  - apply lookup_singleton_eq.
  - reflexivity.
Defined.

Lemma short_fragment_skipped_witness :
  recognize_audio_stream (double_engine false) double_loads
    (fragment_request "s" (f32_bytes_half ++ f32_bytes_one)) (loaded_state false)
  = Some (Normal (text_response (JStr EmptyString) "partial"),
          with_lock_entry
            (session_id_of (fragment_request "s" (f32_bytes_half ++ f32_bytes_one)))
            (loaded_state false)).
Proof.
  apply (short_fragment_skipped (double_engine false) double_loads
           (fragment_request "s" (f32_bytes_half ++ f32_bytes_one))
           (loaded_state false)).
  - apply loaded_model.
  - reflexivity.
  - vm_compute. discriminate.
  - reflexivity.
  - reflexivity.
Defined.

Lemma jump_fragment_fails_witness :
  recognize_audio_stream (double_engine false) double_loads
    (fragment_request "s" click) (loaded_state false)
  = Some (Normal (error_response 500
                    "Vosk处理失败: assignment destination is read-only"),
          with_lock_entry (session_id_of (fragment_request "s" click))
            (loaded_state false)).
Proof.
  apply (jump_fragment_fails (double_engine false) double_loads
           (fragment_request "s" click) (loaded_state false)).
  - apply loaded_model.
  - reflexivity.
  - reflexivity.
  - vm_compute. discriminate.
  - vm_compute. reflexivity.
Defined.

Lemma fragment_recognised_witness :
  exists st',
    recognize_audio_stream (double_engine false) double_loads
      (fragment_request "s" silence) (loaded_state false)
    = Some (Normal (text_response (dict_get ∅ "partial" (JStr EmptyString))
                      "partial"), st') /\
    recognizers st' !! session_id_of (fragment_request "s" silence)
    = Some 1%nat /\
    engine st' = 2%nat /\
    calls st'
    = calls (loaded_state false)
      ++ [CallKaldiRecognizer]
      ++ [CallAcceptWaveform 1%nat (repeat x00 640); CallPartialResult 1%nat] /\
    lock_heap st' = lock_heap (loaded_state false) ++ [false; false].
Proof.
  apply (fragment_recognised (double_engine false) double_loads
           (fragment_request "s" silence) (loaded_state false)
           (repeat 0 320) (repeat x00 640) false 1%nat 2%nat false 2%nat
           "{}" 2%nat ∅).
  - apply loaded_model.
  - reflexivity.
  - apply not_elem_of_empty.
  - apply no_lock_free. reflexivity.
  - exact convert_silence.
  - exact prepare_pcm_silence.
  - right. split; reflexivity.
  - reflexivity.
  - reflexivity.
  - reflexivity.
Defined.

Lemma recognizer_creation_failure_witness :
  exists st',
    recognize_audio_stream failing_engine double_loads
      (fragment_request "s" silence) failing_loaded
    = Some (Normal (error_response 500 ("创建识别器失败: " ++ "engine failure")),
            st') /\
    recognizers st' = recognizers failing_loaded /\
    calls st' = calls failing_loaded ++ [CallKaldiRecognizer] /\
    lock_heap st' = lock_heap failing_loaded ++ [false; false].
Proof.
  apply (recognizer_creation_failure failing_engine double_loads
           (fragment_request "s" silence) failing_loaded
           (repeat 0 320) (repeat x00 640) false "engine failure" 0%nat).
  - eexists. reflexivity.
  - reflexivity.
  - apply not_elem_of_empty.
  - apply no_lock_free. reflexivity.
  - exact convert_silence.
  - exact prepare_pcm_silence.
  - reflexivity.
  - reflexivity.
Defined.

Lemma stream_other_sessions_untouched_witness :
  exists r st',
    recognize_audio_stream (double_engine false) double_loads
      (fragment_request "t" silence) active_state = Some (r, st') /\
    recognizers st' !! "s" = recognizers active_state !! "s" /\
    session_locks st' !! "s" = session_locks active_state !! "s" /\
    ("s" ∈ session_closed st' <-> "s" ∈ session_closed active_state) /\
    rec st' = rec active_state /\ model st' = model active_state.
Proof.
  destruct (recognize_audio_stream (double_engine false) double_loads
              (fragment_request "t" silence) active_state)
    as [[r st']|] eqn:H; [|vm_compute in H; discriminate].
  exists r, st'. split; [reflexivity|].
  apply (stream_other_sessions_untouched _ _ _ _ _ _ "s" H).
  vm_compute. discriminate.
Defined.

Lemma upload_temp_file_witness :
  exists resp tmp' st',
    recognize_audio (double_engine false) double_loads double_wave_open
      (Some [x02; x00; x00]) [] (loaded_state false)
    = Some (Normal (resp, tmp'), st') /\
    match double_wave_open [x02; x00; x00] with
    | Raised e =>
        resp = error_response 500 e /\ tmp' = [] ++ [[x02; x00; x00]] /\
        st' = loaded_state false
    | Normal wf =>
        if (nchannels wf =? 1) && (sampwidth wf =? 2) && (framerate wf =? 16000)
        then tmp' = []
        else resp = error_response 400 (unsupported_format wf) /\
             tmp' = [] ++ [[x02; x00; x00]] /\ st' = loaded_state false
    end.
Proof.
  apply (upload_temp_file (double_engine false) double_loads double_wave_open
           [x02; x00; x00] [] (loaded_state false)
           (VoskModel MODEL_PATH) 0%nat); reflexivity.
Defined.

(** The stereo upload of the witness above, worked out: status 400, the file
    left behind. *)
Example stereo_upload_left_behind :
  recognize_audio (double_engine false) double_loads double_wave_open
    (Some [x02; x00; x00]) [] (loaded_state false)
  = Some (Normal (error_response 400
                    "音频格式不支持。需要: 单声道, 16位, 16kHz。当前: 2声道, 16位, 16000Hz",
                  [[x02; x00; x00]]), loaded_state false).
Proof. vm_compute. reflexivity. Qed.

Lemma upload_engine_calls_witness :
  exists r st',
    recognize_audio (double_engine false) double_loads double_wave_open
      (Some [x01; x00; x00]) [] (loaded_state false) = Some (r, st') /\
    exists new_calls,
      calls st' = calls (loaded_state false) ++ new_calls /\
      forall c, In c new_calls ->
        (exists content wf,
           Some [x01; x00; x00] = Some content /\
           double_wave_open content = Normal wf /\
           c = CallAcceptWaveform 0%nat (frames wf)) \/
        c = CallResult 0%nat \/ c = CallPartialResult 0%nat.
Proof.
  destruct (recognize_audio (double_engine false) double_loads double_wave_open
              (Some [x01; x00; x00]) [] (loaded_state false))
    as [[r st']|] eqn:H; [|vm_compute in H; discriminate].
  exists r, st'. split; [reflexivity|].
  exact (upload_engine_calls (double_engine false) double_loads
           double_wave_open (Some [x01; x00; x00]) [] (loaded_state false)
           0%nat r st' eq_refl H).
Defined.

Lemma init_partial_failure_witness :
  exists st,
    init_vosk_model failing_engine double_path_exists double_load_model
      (@blank_state failing_engine 0%nat)
    = Some (Normal false, st) /\
    model st = Some (VoskModel MODEL_PATH) /\ rec st = None /\
    health_check failing_engine st
    = Some (Normal {| status := 200;
                      body := [("status", JStr "ok");
                               ("model_loaded", JBool true)] |}, st) /\
    recognize_audio failing_engine double_loads double_wave_open
      (Some [x01; x00; x00]) [] st
    = Some (Normal (model_not_initialised, []), st).
Proof.
  apply (init_partial_failure failing_engine double_loads double_wave_open
           double_path_exists double_load_model 0%nat
           (VoskModel MODEL_PATH) "engine failure" 0%nat
           (Some [x01; x00; x00]) []); reflexivity.
Defined.

Lemma start_double :
  start (double_engine false) double_path_exists double_load_model 0%nat
  = Some started_state.
Proof. reflexivity. Qed.

Lemma served_quiescent_witness :
  exists st,
    rtc (step double_loads double_wave_open) started_state st /\
    recognizers st !! "s" = Some 1%nat /\
    (quiescent st /\
     forall session_id h,
       recognizers st !! session_id = Some h ->
       exists lock,
         session_locks st !! session_id = Some lock /\
         lock_heap st !! lock = Some false).
Proof.
  destruct (recognize_audio_stream (double_engine false) double_loads
              (fragment_request "s" silence) started_state)
    as [[r st]|] eqn:H; [|vm_compute in H; discriminate].
  assert (rtc (step double_loads double_wave_open) started_state st) as R
    by (apply rtc_once; exact (step_stream _ _ _ _ _ _ H)).
  exists st. split; [exact R|]. split.
  - vm_compute in H. injection H as _ <-. reflexivity.
  - exact (served_quiescent (double_engine false) double_loads
             double_wave_open double_path_exists double_load_model
             0%nat started_state st start_double R).
Defined.

Lemma served_answered_witness :
  exists resp st',
    recognize_audio_stream (double_engine false) double_loads
      (end_request "s") started_state = Some (Normal resp, st') /\
    rtc (step double_loads double_wave_open) started_state st'.
Proof.
  apply (served_answered (double_engine false) double_loads double_wave_open
           double_path_exists double_load_model 0%nat
           started_state started_state (end_request "s")).
  - exact start_double.
  - apply rtc_refl.
Defined.

Lemma stream_answer_shape_witness :
  exists r st',
    recognize_audio_stream (double_engine false) double_loads
      (fragment_request "s" silence) (loaded_state false) = Some (r, st') /\
    exists resp,
      r = Normal resp /\
      coherent_answer resp /\
      (status resp = 200 -> recognition_answer resp).
Proof.
  destruct (recognize_audio_stream (double_engine false) double_loads
              (fragment_request "s" silence) (loaded_state false))
    as [[r st']|] eqn:H; [|vm_compute in H; discriminate].
  exists r, st'. split; [reflexivity|].
  exact (stream_answer_shape (double_engine false) double_loads
           (fragment_request "s" silence) (loaded_state false) r st' H).
Defined.

Lemma upload_answer_shape_witness :
  exists r st',
    recognize_audio (double_engine false) double_loads double_wave_open
      (Some [x01; x00; x00]) [] (loaded_state false) = Some (r, st') /\
    exists resp tmp',
      r = Normal (resp, tmp') /\
      coherent_answer resp /\
      (status resp = 200 -> recognition_answer resp).
Proof.
  destruct (recognize_audio (double_engine false) double_loads double_wave_open
              (Some [x01; x00; x00]) [] (loaded_state false))
    as [[r st']|] eqn:H; [|vm_compute in H; discriminate].
  exists r, st'. split; [reflexivity|].
  exact (upload_answer_shape (double_engine false) double_loads
           double_wave_open (Some [x01; x00; x00]) [] (loaded_state false)
           r st' H).
Defined.

Lemma start_outcome_witness :
  double_path_exists MODEL_PATH = true /\
  exists m h es,
    double_load_model MODEL_PATH = Normal m /\
    KaldiRecognizer (double_engine false) (Some m) 16000 0%nat = (Normal h, es) /\
    started_state
    = @mk_state (double_engine false) (Some m) (Some h) ∅ ∅ ∅ [] es
        [CallKaldiRecognizer].
Proof.
  apply (start_outcome (double_engine false) double_path_exists
           double_load_model 0%nat started_state).
  reflexivity.
Defined.

Lemma late_fragment_reaches_engine_witness :
  exists resp1 st1 resp2 st2 rest,
    recognize_audio_stream (double_engine false) double_loads
      (end_request "s") active_run_state = Some (Normal resp1, st1) /\
    session_closed st1 = ∅ /\
    recognize_audio_stream (double_engine false) double_loads
      (fragment_request "s" silence) st1 = Some (Normal resp2, st2) /\
    calls st2 = calls st1 ++ CallKaldiRecognizer :: rest /\
    forall h es,
      KaldiRecognizer (double_engine false) (model st1) 16000 (engine st1)
      = (Normal h, es) ->
      recognizers st2 !! session_id_of (fragment_request "s" silence) = Some h /\
      exists rest', rest = CallAcceptWaveform h (repeat x00 640) :: rest'.
Proof.
  apply (late_fragment_reaches_engine (double_engine false) double_loads
           double_wave_open double_path_exists double_load_model
           0%nat started_state active_run_state
           (end_request "s") (fragment_request "s" silence)
           (repeat 0 320) (repeat x00 640) false).
  - exact start_double.
  - apply rtc_once.
    apply (step_stream double_loads double_wave_open
             (fragment_request "s" silence)
             (Normal (text_response (JStr EmptyString) "partial"))).
    vm_compute. reflexivity.
  - reflexivity.
  - reflexivity.
  - reflexivity.
  - exact convert_silence.
  - exact prepare_pcm_silence.
Defined.

(** The run of the witness above, worked out: a fragment opens session [s]
    on handle 1, the end-of-utterance request finalises handle 1 and leaves
    no marker, and the fragment that follows is fed to the new handle 2. *)
Example late_fragment_run :
  exists st1 st2,
    recognize_audio_stream (double_engine false) double_loads
      (end_request "s") active_run_state
    = Some (Normal (scored_response (JStr EmptyString) (JNum 0) "final"), st1) /\
    session_closed st1 = ∅ /\ recognizers st1 = ∅ /\
    recognize_audio_stream (double_engine false) double_loads
      (fragment_request "s" silence) st1
    = Some (Normal (text_response (JStr EmptyString) "partial"), st2) /\
    recognizers st2 !! "s" = Some 2%nat /\
    calls st2 = calls st1 ++ [CallKaldiRecognizer;
                              CallAcceptWaveform 2%nat (repeat x00 640);
                              CallPartialResult 2%nat].
Proof.
  eexists _, _. split; [vm_compute; reflexivity|].
  split; [reflexivity|]. split; [reflexivity|].
  split; [vm_compute; reflexivity|].
  split; vm_compute; reflexivity.
Qed.
